(** * ExtractDat3: the binary decoder of Thermo Element dat files

    A shallow embedding of the classes [Mass], [Scan], [ScanIterator],
    [DatFile] and [DatFileIterator] of [ExtractDat3.py], and the properties
    of the decoder that its specification states.

    Conventions of the embedding.
    - A file is the list of its bytes.  A handle opened on it is that list;
      every read sequence of the program starts with a [seek], so the
      position of the handle is threaded inside each constructor only.
    - A handle attribute is [None] or a handle that is open for reading.  A
      file object that has been closed (the one a [Scan] still refers to
      after [DatFile.Close], on which [seek] raises [ValueError]) is not
      represented: the properties are about reads on an open handle and
      about reads with no handle.
    - A [read] returns the bytes the file has; the properties ask for
      buffers the interpreter can allocate.
    - Python integers are [Z]; the two float attributes are binary64 floats
      ([PrimFloat]), the arithmetic Python's [float] has.
    - A raised exception is the [Raise] alternative of [result]. *)

From Stdlib Require Import ZArith Lia PrimFloat DecimalString Strings.Byte.
From Stdlib Require DecimalPos DecimalZ.
From stdpp Require Import gmap strings list.

#[local] Open Scope Z_scope.

Abbreviation byte := Byte.byte.

(** ** Exceptions *)

Inductive exn : Type :=
| EOS                               (* class EOS(DATException) *)
| NotOpen                           (* class NotOpen(DATException) *)
| UnknownKey (code : string)        (* class UnknownKey(DATException) *)
| UnknownDataType (code : string)   (* class UnknownDataType(DATException) *)
| Exception (msg : string)          (* raise Exception(name + " is already set") *)
| IndexError (msg : string)         (* raised by GetScan and by tuple indexing *)
| ZeroDivisionError                 (* float division by zero *)
| struct_error                      (* struct.unpack on a buffer of the wrong size *)
| OSError                           (* seek to a negative position *)
| AttributeError                    (* attribute access on None *)
| StopIteration.

Inductive result (A : Type) : Type :=
| Ok (a : A)
| Raise (e : exn).
Arguments Ok {A} a.
Arguments Raise {A} e.

#[global] Instance result_ret : MRet result := λ A a, Ok a.
#[global] Instance result_bind : MBind result :=
  λ A B f r, match r with Ok a => f a | Raise e => Raise e end.

(** ** Python primitives used by the decoder *)

(** [str(n)] for an integer. *)
Definition str (n : Z) : string := NilZero.string_of_int (Z.to_int n).

(** [float(n)]: exact for |n| < 2^53, which covers every 32-bit field. *)
Fixpoint float_of_pos (p : positive) : float :=
  match p with
  | xH => 1%float
  | xO q => (2 * float_of_pos q)%float
  | xI q => (2 * float_of_pos q + 1)%float
  end.

Definition float_of_Z (n : Z) : float :=
  match n with
  | Z0 => 0%float
  | Zpos p => float_of_pos p
  | Zneg p => (- float_of_pos p)%float
  end.

(** [x / y] where [x] is a float and [y] an int. *)
Definition float_div_int (x : float) (y : Z) : result float :=
  if y =? 0 then Raise ZeroDivisionError else Ok (x / float_of_Z y)%float.

Definition byte_val (b : byte) : Z := Z.of_N (Byte.to_N b).

(** [struct.unpack("<I", b0 b1 b2 b3)[0]] *)
Definition unpack_I (b0 b1 b2 b3 : byte) : Z :=
  byte_val b0 + 2 ^ 8 * byte_val b1 + 2 ^ 16 * byte_val b2 + 2 ^ 24 * byte_val b3.

(** The little-endian 32-bit words of a buffer (a trailing partial word is
    ignored here; [unpack_Is] checks the size first). *)
Fixpoint le_words (bs : list byte) : list Z :=
  match bs with
  | b0 :: b1 :: b2 :: b3 :: rest => unpack_I b0 b1 b2 b3 :: le_words rest
  | _ => []
  end.

(** [struct.unpack("<%dI" % n, bs)] *)
Definition unpack_Is (n : Z) (bs : list byte) : result (list Z) :=
  if Z.of_nat (length bs) =? 4 * n then Ok (le_words bs) else Raise struct_error.

(** [fd.seek(pos)] leaves what the handle has to read, [fd.read(n)] takes at
    most [n] bytes of it, fewer at the end of the file.  The program never
    asks for a negative number of bytes. *)
Definition seek (data : list byte) (pos : Z) : result (list byte) :=
  if pos <? 0 then Raise OSError else Ok (drop (Z.to_nat pos) data).

Definition read (rest : list byte) (n : Z) : list byte := take (Z.to_nat n) rest.

(** [t[i]] on a tuple, with Python's wrap-around of negative indices. *)
Definition tuple_get (t : list Z) (i : Z) : result Z :=
  let n := Z.of_nat (length t) in
  let j := if i <? 0 then i + n else i in
  if (j <? 0) || (n <=? j) then Raise (IndexError "tuple index out of range")
  else match t !! Z.to_nat j with
       | Some x => Ok x
       | None => Raise (IndexError "tuple index out of range")
       end.

(** ** Constants *)

Definition HDR_INDEX_OFFSET : Z := 33.
Definition HDR_INDEX_LEN : Z := 39.
Definition HDR_TIMESTAMP : Z := 40.

Definition KEY_EOS : Z := 0xF.
Definition KEY_EOM : Z := 0x8.
Definition KEY_BSCAN : Z := 0xC.
Definition KEY_B : Z := 0xB.
Definition KEY_VOLT : Z := 0x4.
Definition KEY_TIME : Z := 0x3.
Definition KEY_MASS : Z := 0x2.
Definition KEY_DATA : Z := 0x1.

Definition DATA_ANALOG : Z := 0x0.
Definition DATA_PULSE : Z := 0x1.
Definition DATA_FARADAY : Z := 0x8.

Definition _CheckOpen {A} (fd : option A) : result A :=
  match fd with
  | None => Raise NotOpen
  | Some h => Ok h
  end.

(** ** class Mass *)

(** The attributes of a [Mass].  [self.fd] and [self.scan] are references to
    the handle and the owning scan; the decoder reads the scan's [edac] only,
    which is passed on its own.  [Mass_size] is absent until the end-of-mass
    word is read. *)
Record Mass : Type := mkMass {
  Mass_offset : Z;
  magnetMass : option float;
  acceleratingVoltage : option float;
  channelTime : option Z;
  duration : option Z;
  measurements : gmap string (list Z);
  Mass_size : option Z
}.

Definition new_Mass (offset : Z) : Mass :=
  mkMass offset None None None None ∅ None.

Definition set_magnetMass (m : Mass) (v : float) : Mass :=
  mkMass (Mass_offset m) (Some v) (acceleratingVoltage m) (channelTime m)
         (duration m) (measurements m) (Mass_size m).

Definition set_acceleratingVoltage (m : Mass) (v : float) : Mass :=
  mkMass (Mass_offset m) (magnetMass m) (Some v) (channelTime m)
         (duration m) (measurements m) (Mass_size m).

Definition set_channelTime (m : Mass) (v : Z) : Mass :=
  mkMass (Mass_offset m) (magnetMass m) (acceleratingVoltage m) (Some v)
         (duration m) (measurements m) (Mass_size m).

Definition set_duration (m : Mass) (v : Z) : Mass :=
  mkMass (Mass_offset m) (magnetMass m) (acceleratingVoltage m) (channelTime m)
         (Some v) (measurements m) (Mass_size m).

Definition set_size (m : Mass) (v : Z) : Mass :=
  mkMass (Mass_offset m) (magnetMass m) (acceleratingVoltage m) (channelTime m)
         (duration m) (measurements m) (Some v).

(** [self.measurements[category].append(value)] on a [defaultdict(list)]: a
    missing category starts from the empty list. *)
Definition measurements_append (m : Mass) (category : string) (value : Z) : Mass :=
  mkMass (Mass_offset m) (magnetMass m) (acceleratingVoltage m) (channelTime m)
         (duration m)
         (<[category := default [] (measurements m !! category) ++ [value]]>
            (measurements m))
         (Mass_size m).

(** The two attributes [_SetAttr] is called on. *)
Inductive attr : Type := attr_duration | attr_channelTime.

Definition attr_name (a : attr) : string :=
  match a with
  | attr_duration => "duration"
  | attr_channelTime => "channelTime"
  end.

Definition getattr (m : Mass) (a : attr) : option Z :=
  match a with
  | attr_duration => duration m
  | attr_channelTime => channelTime m
  end.

Definition setattr (m : Mass) (a : attr) (value : Z) : Mass :=
  match a with
  | attr_duration => set_duration m value
  | attr_channelTime => set_channelTime m value
  end.

(** [Mass._SetAttr]: set an attribute if it is not already set. *)
Definition _SetAttr (m : Mass) (name : attr) (value : Z) : result Mass :=
  match getattr m name with
  | Some _ => Raise (Exception (attr_name name +:+ " is already set"))
  | None => Ok (setattr m name value)
  end.

(** What one turn of the [while True] loop does to the control flow. *)
Inductive flow : Type :=
| Next (m : Mass)      (* fall through to the next iteration *)
| Break (m : Mass)     (* break *)
| Throw (e : exn).     (* raise *)

(** The DATA branch: the value shifted and signed, appended to a category. *)
Definition data_value (exp flag value : Z) : Z :=
  let value := Z.shiftl value exp in
  if flag =? 0 then value else - value.

(** The body of the loop of [Mass.__init__] on the word [tmp]; [tell] is
    [fd.tell()] after the word was read. *)
Definition Mass_body (scan_edac : Z) (m : Mass) (tell : Z) (tmp : Z) : flow :=
  let key := Z.shiftr (Z.land tmp 0xF0000000) 28 in
  let value := Z.land tmp 0x0FFFFFFF in
  if key =? KEY_EOS then Throw EOS
  else if key =? KEY_EOM then
    match _SetAttr m attr_duration value with
    | Raise e => Throw e
    | Ok m => Break (set_size m (tell - Mass_offset m))
    end
  else if key =? KEY_BSCAN then Next m
  else if key =? KEY_B then Next m
  else if key =? KEY_VOLT then
    match float_div_int (float_of_Z scan_edac * 1000)%float value with
    | Raise e => Throw e
    | Ok q =>
        match float_div_int q (2 ^ 18) with
        | Raise e => Throw e
        | Ok value => Next (set_acceleratingVoltage m value)
        end
    end
  else if key =? KEY_TIME then
    match _SetAttr m attr_channelTime value with
    | Raise e => Throw e
    | Ok m => Next m
    end
  else if key =? KEY_MASS then
    match float_div_int (float_of_Z value * 1)%float (2 ^ 18) with
    | Raise e => Throw e
    | Ok v => Next (set_magnetMass m v)
    end
  else if key =? KEY_DATA then
    let flag := Z.shiftr (Z.land value 0x0F000000) 24 in
    let dataType := Z.shiftr (Z.land value 0x00F00000) 20 in
    let exp := Z.shiftr (Z.land value 0x000F0000) 16 in
    let value := Z.land value 0x0000FFFF in
    if dataType =? DATA_ANALOG then
      Next (measurements_append m "analog" (data_value exp flag value))
    else if dataType =? DATA_PULSE then
      Next (measurements_append m "pulse" (data_value exp flag value))
    else if dataType =? DATA_FARADAY then
      Next (measurements_append m "faraday" (data_value exp flag value))
    else Throw (UnknownDataType (str dataType))
  else Throw (UnknownKey (str key)).

(** The loop of [Mass.__init__]: [rest] is what the handle has left to read
    and [tell] its position.  A read of fewer than four bytes makes
    [struct.unpack] raise. *)
Fixpoint Mass_while (scan_edac : Z) (m : Mass) (tell : Z) (rest : list byte)
  : result Mass :=
  match rest with
  | b0 :: b1 :: b2 :: b3 :: rest' =>
      match Mass_body scan_edac m (tell + 4) (unpack_I b0 b1 b2 b3) with
      | Next m' => Mass_while scan_edac m' (tell + 4) rest'
      | Break m' => Ok m'
      | Throw e => Raise e
      end
  | _ => Raise struct_error
  end.

(** [Mass.__init__(self, scan, fd, offset)] *)
Definition Mass_init (scan_edac : Z) (fd : option (list byte)) (offset : Z)
  : result Mass :=
  data ← _CheckOpen fd;
  rest ← seek data offset;
  Mass_while scan_edac (new_Mass offset) offset rest.

(** ** class DatFile (attributes) and class Scan *)

(** [DatFile_content] is the content of the file at [self.path]; [fd] is the
    handle that [Open] acquires on it, [None] while the file is closed. *)
Record DatFile : Type := mkDatFile {
  DatFile_content : list byte;
  fd : option (list byte);
  timestamp : Z;
  indexLen : Z;
  indexOffset : Z;
  DatFile_vals : list Z;
  offsets : list Z
}.

Record Scan : Type := mkScan {
  headerSize : Z;
  number : Z;
  delta : Z;
  acf : Z;
  time : Z;
  fcf : Z;
  edac : Z;
  Scan_vals : list Z;
  Scan_fd : option (list byte);
  Scan_offset : Z
}.

(** [Scan.__init__(self, dat, offset)] *)
Definition Scan_init (dat : DatFile) (offset : Z) : result Scan :=
  match fd dat with
  | None => Raise AttributeError
  | Some data =>
      rest ← seek data offset;
      let headerSize := 47 * 4 in
      vals ← unpack_Is (headerSize / 4) (read rest headerSize);
      number ← tuple_get vals 9;
      delta ← tuple_get vals 7;
      acf ← tuple_get vals 12;
      time ← tuple_get vals 19;
      fcf ← tuple_get vals 35;
      edac ← tuple_get vals 31;
      Ok (mkScan headerSize number delta acf time fcf edac vals (fd dat)
                 (offset + headerSize))
  end.

(** [Scan.GetMass]: [None] stands for the end of the scan. *)
Definition GetMass (scan : Scan) (offset : Z) : result (option Mass) :=
  _ ← _CheckOpen (Scan_fd scan);
  match Mass_init (edac scan) (Scan_fd scan) offset with
  | Ok mass => Ok (Some mass)
  | Raise EOS => Ok None
  | Raise e => Raise e
  end.

(** ** class ScanIterator *)

Record ScanIterator : Type := mkScanIterator {
  ScanIterator_scan : Scan;
  ScanIterator_offset : Z
}.

Definition ScanIterator_init (scan : Scan) (offset : Z) : result ScanIterator :=
  _ ← _CheckOpen (Scan_fd scan);
  Ok (mkScanIterator scan offset).

(** [ScanIterator.__next__]: the mass and the iterator after the call. *)
Definition ScanIterator_next (it : ScanIterator) : result (Mass * ScanIterator) :=
  mass ← GetMass (ScanIterator_scan it) (ScanIterator_offset it);
  match mass with
  | None => Raise StopIteration
  | Some mass =>
      match Mass_size mass with
      | None => Raise AttributeError
      | Some size =>
          Ok (mass, mkScanIterator (ScanIterator_scan it)
                                   (ScanIterator_offset it + size))
      end
  end.

(** [Scan.__iter__] *)
Definition Scan_iter (scan : Scan) : result ScanIterator :=
  ScanIterator_init scan (Scan_offset scan).

(** A [for] loop over an iterator, collecting what it yields: [__next__] is
    called until it raises [StopIteration]; any other exception leaves the
    loop.  [fuel] bounds the number of calls, [None] is fuel exhausted. *)
Fixpoint masses_from (fuel : nat) (it : ScanIterator) : option (result (list Mass)) :=
  match fuel with
  | O => None
  | S fuel =>
      match ScanIterator_next it with
      | Raise StopIteration => Some (Ok [])
      | Raise e => Some (Raise e)
      | Ok (mass, it') =>
          match masses_from fuel it' with
          | Some (Ok masses) => Some (Ok (mass :: masses))
          | other => other
          end
      end
  end.

(** [list(scan)].  Every mass takes at least one word of the file, so one call
    per byte of the file and one more is fuel enough ([Scan_masses_total]). *)
Definition Scan_masses (scan : Scan) : option (result (list Mass)) :=
  match Scan_iter scan with
  | Raise e => Some (Raise e)
  | Ok it => masses_from (S (length (default [] (Scan_fd scan)))) it
  end.

(** ** class DatFile *)

(** [DatFile.__init__(self, path)], on the content of the file at [path]. *)
Definition DatFile_init (content : list byte) : result DatFile :=
  rest ← seek content 0x10;
  let fields := 85 in
  let tmp := read rest (fields * 4) in
  vals ← unpack_Is fields tmp;
  timestamp ← tuple_get vals HDR_TIMESTAMP;
  indexLen ← tuple_get vals HDR_INDEX_LEN;
  indexOffset ← tuple_get vals HDR_INDEX_OFFSET;
  rest ← seek content (indexOffset + 4);
  let bytes := indexLen * 4 in
  offsets ← unpack_Is indexLen (read rest bytes);
  Ok (mkDatFile content None timestamp indexLen indexOffset vals offsets).

Definition set_fd (dat : DatFile) (h : option (list byte)) : DatFile :=
  mkDatFile (DatFile_content dat) h (timestamp dat) (indexLen dat)
            (indexOffset dat) (DatFile_vals dat) (offsets dat).

(** [DatFile.Open] *)
Definition Open (dat : DatFile) : DatFile := set_fd dat (Some (DatFile_content dat)).

(** [DatFile.Close]: the attribute of the [DatFile] becomes [None]. *)
Definition Close (dat : DatFile) : result DatFile :=
  match fd dat with
  | None => Raise AttributeError
  | Some _ => Ok (set_fd dat None)
  end.

(** [DatFile.NumScans] *)
Definition NumScans (dat : DatFile) : Z := Z.of_nat (length (offsets dat)).

(** [DatFile.GetScan] *)
Definition GetScan (dat : DatFile) (index : Z) : result Scan :=
  _ ← _CheckOpen (fd dat);
  if Z.of_nat (length (offsets dat)) <=? index then
    Raise (IndexError ("Scan index out of range: " +:+ str index +:+ " >= "
                         +:+ str (Z.of_nat (length (offsets dat)))))
  else
    offset ← tuple_get (offsets dat) index;
    Scan_init dat offset.

(** ** class DatFileIterator *)

Record DatFileIterator : Type := mkDatFileIterator {
  DatFileIterator_dat : DatFile;
  DatFileIterator_i : Z
}.

(** [DatFile.__iter__] *)
Definition DatFile_iter (dat : DatFile) : DatFileIterator := mkDatFileIterator dat 0.

(** [DatFileIterator.__next__] *)
Definition DatFileIterator_next (it : DatFileIterator) : result (Scan * DatFileIterator) :=
  if NumScans (DatFileIterator_dat it) <=? DatFileIterator_i it then Raise StopIteration
  else
    scan ← GetScan (DatFileIterator_dat it) (DatFileIterator_i it);
    Ok (scan, mkDatFileIterator (DatFileIterator_dat it) (DatFileIterator_i it + 1)).

(** ** Test fixtures: the encoder of the words the decoder reads *)

Definition byte_of_Z (z : Z) : byte :=
  default Byte.x00 (Byte.of_N (Z.to_N (z mod 256))).

(** [struct.pack("<I", w)] *)
Definition pack_I (w : Z) : list byte :=
  [byte_of_Z w; byte_of_Z (w / 2 ^ 8); byte_of_Z (w / 2 ^ 16); byte_of_Z (w / 2 ^ 24)].

Definition pack_Is (ws : list Z) : list byte := flat_map pack_I ws.

(** A small file: 16 bytes of preamble, the 85 header fields (field 33 the
    index offset 356, field 39 the index length 1, field 40 a timestamp), a
    four-byte index header, the index [364], a scan header of 47 fields
    (field 9 the number 7, field 31 the EDAC 1000) and the mass stream. *)
Definition sample_header : list Z :=
  replicate 33 0 ++ [356] ++ replicate 5 0 ++ [1; 1400000000] ++ replicate 44 0.

Definition sample_scan_header : list Z :=
  replicate 9 0 ++ [7] ++ replicate 21 0 ++ [1000] ++ replicate 15 0.

Definition sample_file (stream : list Z) : list byte :=
  pack_Is (replicate 4 0 ++ sample_header ++ [0; 364] ++ sample_scan_header ++ stream).

Definition sample_stream : list Z := [0x1000000A; 0x80000064; 0xF0000000].

Definition sample_dat : DatFile :=
  mkDatFile (sample_file sample_stream) None 1400000000 1 356 sample_header [364].

Definition sample_scan (stream : list Z) : Scan :=
  mkScan 188 7 0 0 0 0 1000 sample_scan_header (Some (sample_file stream)) 552.

(** The sample file cut at byte 400, inside the scan header at byte 364. *)
Definition truncated_file : list byte := take 400 (sample_file sample_stream).

Definition truncated_dat : DatFile :=
  mkDatFile truncated_file None 1400000000 1 356 sample_header [364].

(** ** The format, as the specification words it *)

(** WordCodec: the 4-bit tag and the 28-bit payload of a word. *)
Definition tag (w : Z) : Z := Z.shiftr w 28.
Definition payload (w : Z) : Z := Z.land w 0x0FFFFFFF.

(** [bits lo hi w]: the field made of the bits [lo] to [hi] of [w]. *)
Definition bits (lo hi : Z) (w : Z) : Z := (w / 2 ^ lo) mod 2 ^ (hi - lo + 1).

(** The channel category of a data type code. *)
Definition data_category (dataType : Z) : option string :=
  if dataType =? 0 then Some "analog"
  else if dataType =? 1 then Some "pulse"
  else if dataType =? 8 then Some "faraday"
  else None.

(** The signed value a DATA word carries. *)
Definition word_value (w : Z) : Z :=
  let magnitude := bits 0 15 w * 2 ^ bits 16 19 w in
  if bits 24 27 w =? 0 then magnitude else - magnitude.

(** The accelerating voltage of a VOLT payload. *)
Definition volt_formula (e p : Z) : float :=
  (float_of_Z e * 1000 / float_of_Z p / 262144)%float.

(** The little-endian word a buffer starts with, if it has four bytes. *)
Definition head_word (bs : list byte) : option Z :=
  match bs with
  | b0 :: b1 :: b2 :: b3 :: _ => Some (unpack_I b0 b1 b2 b3)
  | _ => None
  end.

(** The little-endian word at byte [pos] of a file, if the file has it. *)
Definition word_at (data : list byte) (pos : Z) : option Z :=
  head_word (drop (Z.to_nat pos) data).

(** The file holds the words [ws] from byte [pos] on. *)
Fixpoint words_at (data : list byte) (pos : Z) (ws : list Z) : Prop :=
  match ws with
  | [] => True
  | w :: ws' => word_at data pos = Some w ∧ words_at data (pos + 4) ws'
  end.

(** ** Well-formed mass records and scans *)

(** A word after which the decoder reads on: BSCAN, B, MASS, TIME, a VOLT
    word of non-zero payload, a DATA word of a known data type. *)
Definition plain_word (w : Z) : bool :=
  (tag w =? 0xC) || (tag w =? 0xB) || (tag w =? 0x2) || (tag w =? 0x3)
  || ((tag w =? 0x4) && negb (payload w =? 0))
  || ((tag w =? 0x1) && bool_decide (is_Some (data_category (bits 20 23 w)))).

Fixpoint count_tag (k : Z) (ws : list Z) : nat :=
  match ws with
  | [] => 0
  | w :: ws' => Nat.add (if tag w =? k then 1%nat else 0%nat) (count_tag k ws')
  end.

(** The words of a mass before its end: plain words, TIME at most once. *)
Definition body_ok (ws : list Z) : bool :=
  forallb plain_word ws && (count_tag 0x3 ws <=? 1)%nat.

(** The payload of the last word of tag [k]. *)
Fixpoint last_payload (k : Z) (ws : list Z) : option Z :=
  match ws with
  | [] => None
  | w :: ws' =>
      match last_payload k ws' with
      | Some p => Some p
      | None => if tag w =? k then Some (payload w) else None
      end
  end.

(** The values of the DATA words of one category, in the order of the words. *)
Fixpoint values_of (category : string) (ws : list Z) : list Z :=
  match ws with
  | [] => []
  | w :: ws' =>
      (if (tag w =? 0x1) && bool_decide (data_category (bits 20 23 w) = Some category)
       then [word_value w] else []) ++ values_of category ws'
  end.

(** [decoded e m ws m']: what reading the plain words [ws] makes of [m]. *)
Definition decoded (e : Z) (m : Mass) (ws : list Z) (m' : Mass) : Prop :=
  Mass_offset m' = Mass_offset m
  ∧ duration m' = duration m
  ∧ Mass_size m' = Mass_size m
  ∧ channelTime m' = from_option Some (channelTime m) (last_payload 0x3 ws)
  ∧ acceleratingVoltage m' =
      from_option (λ p, Some (volt_formula e p)) (acceleratingVoltage m)
                  (last_payload 0x4 ws)
  ∧ magnetMass m' =
      from_option (λ p, Some (float_of_Z p * 1 / 262144)%float) (magnetMass m)
                  (last_payload 0x2 ws)
  ∧ ∀ c, default [] (measurements m' !! c) =
         default [] (measurements m !! c) ++ values_of c ws.

Record mass_record : Type := mkRecord {
  body : list Z;   (* the words before the end-of-mass word *)
  eom : Z          (* the end-of-mass word *)
}.

Definition record_words (r : mass_record) : list Z := body r ++ [eom r].

Definition record_size (r : mass_record) : Z := 4 * (Z.of_nat (length (body r)) + 1).

Definition record_ok (r : mass_record) : bool :=
  body_ok (body r) && (tag (eom r) =? 0x8).

(** The mass the decoder makes of a record. *)
Definition mass_matches (e : Z) (m : Mass) (r : mass_record) : Prop :=
  ∃ m1,
    decoded e (new_Mass (Mass_offset m)) (body r) m1
    ∧ m = set_size (set_duration m1 (payload (eom r))) (record_size r).

(** The masses of consecutive records, the first of them at byte [pos]. *)
Fixpoint masses_match (e : Z) (pos : Z) (ms : list Mass) (rs : list mass_record)
  : Prop :=
  match ms, rs with
  | [], [] => True
  | m :: ms', r :: rs' =>
      Mass_offset m = pos ∧ mass_matches e m r
      ∧ masses_match e (pos + record_size r) ms' rs'
  | _, _ => False
  end.

(** The words of a scan: complete records, then the words of an unfinished
    mass and the end-of-scan word. *)
Definition scan_words (rs : list mass_record) (partial : list Z) (eos : Z) : list Z :=
  flat_map record_words rs ++ partial ++ [eos].

(** The [k]-th 32-bit field of the block at byte [base]. *)
Definition field (data : list byte) (base k : Z) : option Z :=
  word_at data (base + 4 * k).

(** ** Iterating the scans of a file *)

(** A [for] loop over the scans of a file, collecting what the iterator
    yields, as [masses_from] does for the masses of a scan. *)
Fixpoint scans_from (fuel : nat) (it : DatFileIterator) : option (result (list Scan)) :=
  match fuel with
  | O => None
  | S fuel =>
      match DatFileIterator_next it with
      | Raise StopIteration => Some (Ok [])
      | Raise e => Some (Raise e)
      | Ok (scan, it') =>
          match scans_from fuel it' with
          | Some (Ok scans) => Some (Ok (scan :: scans))
          | other => other
          end
      end
  end.

(** [list(dat)]: one call of [__next__] per scan and one more. *)
Definition DatFile_scans (dat : DatFile) : option (result (list Scan)) :=
  scans_from (S (length (offsets dat))) (DatFile_iter dat).

(** Masses that follow one another in the file, the first of them at [pos]. *)
Fixpoint contiguous (pos : Z) (ms : list Mass) : Prop :=
  match ms with
  | [] => True
  | m :: ms' =>
      Mass_offset m = pos
      ∧ ∃ size, Mass_size m = Some size ∧ 4 <= size ∧ contiguous (pos + size) ms'
  end.

(** ** The columns [main] writes for a mass *)

(** [s.startswith('-')] *)
Definition startswith_minus (s : string) : bool := String.prefix "-" s.

(** The lambda [main] maps over the measurements of a mass:
    [str(x) if not str(x).startswith('-') else str(-x)+'*']. *)
Definition format_measurement (x : Z) : string :=
  if negb (startswith_minus (str x)) then str x else str (- x) +:+ "*".

(** [mass.measurements[t]], read from the [defaultdict]. *)
Definition measurements_get (m : Mass) (t : string) : list Z :=
  default [] (measurements m !! t).

(** What the loop [for t in ['pulse', 'analog']] of [main] adds to the
    header line for a mass named [element], while the headers are being
    collected, with the empty column that closes it. *)
Definition main_mass_headers (element : string) (m : Mass) : list string :=
  replicate (length (measurements_get m "pulse")) (element +:+ "p")
  ++ replicate (length (measurements_get m "analog")) (element +:+ "a")
  ++ [""].

(** What [main] adds to the row of a scan for a mass. *)
Definition main_mass_results (m : Mass) : list string :=
  map format_measurement (measurements_get m "pulse")
  ++ map format_measurement (measurements_get m "analog")
  ++ [""].

(** ** Further fixtures and predicates *)

(** The measurements of a mass in the making: the three categories only,
    no empty sequence, values within the range of the DATA words. *)
Definition measurements_inv (ms : gmap string (list Z)) : Prop :=
  ∀ c l, ms !! c = Some l →
         c ∈ ["analog"; "pulse"; "faraday"] ∧ l ≠ []
         ∧ Forall (λ v, - (65535 * 2 ^ 15) <= v <= 65535 * 2 ^ 15) l.

(** The mass of the sample file, as the decoder returns it. *)
Definition sample_mass : Mass :=
  set_size (set_duration (measurements_append (new_Mass 552) "analog" 10) 100) 8.

(** The words of a body that the decoder does something with. *)
Definition signal (ws : list Z) : list Z :=
  List.filter (λ w, negb ((tag w =? 0xC) || (tag w =? 0xB))) ws.

(** The exceptions that leave the iteration over the masses of a scan whose
    handle is open for reading. *)
Definition iteration_error (x : exn) : Prop :=
  x = OSError ∨ x = struct_error
  ∨ (∃ code, x = UnknownKey code) ∨ (∃ code, x = UnknownDataType code)
  ∨ x = Exception "channelTime is already set" ∨ x = ZeroDivisionError.

(** A file of 356 bytes: the header block alone, with no index after it. *)
Definition header_only_file : list byte := take 356 (sample_file []).

(** ** Words and bit fields *)

Lemma byte_val_range b : 0 <= byte_val b < 256.
Proof.
  unfold byte_val. pose proof (Byte.to_N_bounded b). lia.
Qed.

Lemma unpack_I_range b0 b1 b2 b3 : 0 <= unpack_I b0 b1 b2 b3 < 2 ^ 32.
Proof.
  unfold unpack_I.
  pose proof (byte_val_range b0). pose proof (byte_val_range b1).
  pose proof (byte_val_range b2). pose proof (byte_val_range b3).
  change (2 ^ 8) with 256. change (2 ^ 16) with 65536.
  change (2 ^ 24) with 16777216. change (2 ^ 32) with 4294967296. lia.
Qed.

Lemma word_at_range data pos w : word_at data pos = Some w → 0 <= w < 2 ^ 32.
Proof.
  unfold word_at, head_word.
  destruct (drop (Z.to_nat pos) data) as [|b0 [|b1 [|b2 [|b3 r]]]]; try discriminate.
  intros [= <-]. apply unpack_I_range.
Qed.

(** A mask of [n] ones at bit [k] selects the field of [n] bits at [k]. *)
Lemma field_mask v k n :
  0 <= k → 0 <= n →
  Z.shiftr (Z.land v (Z.shiftl (Z.ones n) k)) k = (v / 2 ^ k) mod 2 ^ n.
Proof.
  intros Hk Hn.
  rewrite Z.shiftr_land, Z.shiftr_shiftl_l, Z.sub_diag, Z.shiftl_0_r by lia.
  rewrite Z.land_ones, Z.shiftr_div_pow2 by lia. reflexivity.
Qed.

Lemma key_tag w :
  0 <= w < 2 ^ 32 → Z.shiftr (Z.land w 0xF0000000) 28 = tag w.
Proof.
  intros Hw. unfold tag.
  change 0xF0000000 with (Z.shiftl (Z.ones 4) 28).
  rewrite field_mask, Z.shiftr_div_pow2 by lia.
  apply Z.mod_small. split.
  - apply Z.div_pos; lia.
  - apply Z.div_lt_upper_bound; [lia|]. change (2 ^ 28 * 2 ^ 4) with (2 ^ 32). lia.
Qed.

Lemma tag_range w : 0 <= w < 2 ^ 32 → 0 <= tag w < 16.
Proof.
  intros Hw. unfold tag. rewrite Z.shiftr_div_pow2 by lia. split.
  - apply Z.div_pos; lia.
  - apply Z.div_lt_upper_bound; [lia|]. change (2 ^ 28 * 16) with (2 ^ 32). lia.
Qed.

Lemma payload_mod w : payload w = w mod 2 ^ 28.
Proof.
  unfold payload. change 0x0FFFFFFF with (Z.ones 28).
  apply Z.land_ones. lia.
Qed.

Lemma payload_range w : 0 <= payload w < 2 ^ 28.
Proof. rewrite payload_mod. apply Z.mod_pos_bound. lia. Qed.

(** A field below bit 28 is the same in the payload and in the word. *)
Lemma payload_field w k n :
  0 <= k → 0 <= n → k + n <= 28 →
  (payload w / 2 ^ k) mod 2 ^ n = (w / 2 ^ k) mod 2 ^ n.
Proof.
  intros Hk Hn Hkn. rewrite payload_mod.
  replace 28 with (k + (28 - k)) by lia.
  rewrite Z.pow_add_r by lia.
  rewrite Z.rem_mul_r by lia.
  rewrite (Z.mul_comm (2 ^ k)), Z.div_add by lia.
  rewrite (Z.div_small (w mod 2 ^ k)) by (apply Z.mod_pos_bound; lia).
  rewrite Z.add_0_l.
  replace (28 - k) with (n + (28 - k - n)) by lia.
  rewrite Z.pow_add_r by lia.
  rewrite Z.rem_mul_r by lia.
  rewrite (Z.mul_comm (2 ^ n)), Z.mod_add by lia.
  apply Z.mod_mod. lia.
Qed.

Lemma data_flag w :
  Z.shiftr (Z.land (payload w) 0x0F000000) 24 = bits 24 27 w.
Proof.
  change 0x0F000000 with (Z.shiftl (Z.ones 4) 24).
  rewrite field_mask by lia. unfold bits. apply payload_field; lia.
Qed.

Lemma data_dataType w :
  Z.shiftr (Z.land (payload w) 0x00F00000) 20 = bits 20 23 w.
Proof.
  change 0x00F00000 with (Z.shiftl (Z.ones 4) 20).
  rewrite field_mask by lia. unfold bits. apply payload_field; lia.
Qed.

Lemma data_exp w :
  Z.shiftr (Z.land (payload w) 0x000F0000) 16 = bits 16 19 w.
Proof.
  change 0x000F0000 with (Z.shiftl (Z.ones 4) 16).
  rewrite field_mask by lia. unfold bits. apply payload_field; lia.
Qed.

Lemma data_magnitude w : Z.land (payload w) 0x0000FFFF = bits 0 15 w.
Proof.
  change 0x0000FFFF with (Z.ones 16). rewrite Z.land_ones by lia.
  unfold bits. change (15 - 0 + 1) with 16.
  rewrite <- (payload_field w 0 16) by lia.
  change (2 ^ 0) with 1. rewrite !Z.div_1_r. reflexivity.
Qed.

Lemma bits_range lo hi w : lo <= hi → 0 <= bits lo hi w < 2 ^ (hi - lo + 1).
Proof. intros H. unfold bits. apply Z.mod_pos_bound. apply Z.pow_pos_nonneg; lia. Qed.

Lemma data_value_word w :
  data_value (bits 16 19 w) (bits 24 27 w) (bits 0 15 w) = word_value w.
Proof.
  unfold data_value, word_value.
  rewrite Z.shiftl_mul_pow2 by (apply bits_range; lia). reflexivity.
Qed.

(** ** The loop body, tag by tag *)

Section Body.
Variables (scan_edac : Z) (m : Mass) (tell : Z) (w : Z).
Hypothesis Hw : 0 <= w < 2 ^ 32.

Ltac dispatch H :=
  unfold Mass_body; rewrite (key_tag w Hw), H;
  unfold KEY_EOS, KEY_EOM, KEY_BSCAN, KEY_B, KEY_VOLT, KEY_TIME, KEY_MASS,
    KEY_DATA;
  cbn [Z.eqb Pos.eqb]; fold (payload w).

Lemma Mass_body_EOS : tag w = 0xF → Mass_body scan_edac m tell w = Throw EOS.
Proof. intros H. dispatch H. reflexivity. Qed.

Lemma Mass_body_EOM :
  tag w = 0x8 →
  Mass_body scan_edac m tell w =
    match _SetAttr m attr_duration (payload w) with
    | Raise e => Throw e
    | Ok m' => Break (set_size m' (tell - Mass_offset m'))
    end.
Proof. intros H. dispatch H. reflexivity. Qed.

Lemma Mass_body_BSCAN : tag w = 0xC → Mass_body scan_edac m tell w = Next m.
Proof. intros H. dispatch H. reflexivity. Qed.

Lemma Mass_body_B : tag w = 0xB → Mass_body scan_edac m tell w = Next m.
Proof. intros H. dispatch H. reflexivity. Qed.

Lemma Mass_body_VOLT :
  tag w = 0x4 → payload w ≠ 0 →
  Mass_body scan_edac m tell w =
    Next (set_acceleratingVoltage m (volt_formula scan_edac (payload w))).
Proof.
  intros H Hp. dispatch H. unfold float_div_int.
  destruct (Z.eqb_spec (payload w) 0) as [E|_]; [contradiction|].
  reflexivity.
Qed.

Lemma Mass_body_VOLT_zero :
  tag w = 0x4 → payload w = 0 →
  Mass_body scan_edac m tell w = Throw ZeroDivisionError.
Proof. intros H Hp. dispatch H. rewrite Hp. reflexivity. Qed.

Lemma Mass_body_TIME :
  tag w = 0x3 →
  Mass_body scan_edac m tell w =
    match _SetAttr m attr_channelTime (payload w) with
    | Raise e => Throw e
    | Ok m' => Next m'
    end.
Proof. intros H. dispatch H. reflexivity. Qed.

Lemma Mass_body_MASS :
  tag w = 0x2 →
  Mass_body scan_edac m tell w =
    Next (set_magnetMass m (float_of_Z (payload w) * 1 / 262144)%float).
Proof. intros H. dispatch H. reflexivity. Qed.

Lemma Mass_body_DATA :
  tag w = 0x1 →
  Mass_body scan_edac m tell w =
    match data_category (bits 20 23 w) with
    | Some category => Next (measurements_append m category (word_value w))
    | None => Throw (UnknownDataType (str (bits 20 23 w)))
    end.
Proof.
  intros H. dispatch H.
  rewrite data_flag, data_dataType, data_exp, data_magnitude, data_value_word.
  unfold data_category, DATA_ANALOG, DATA_PULSE, DATA_FARADAY.
  destruct (bits 20 23 w =? 0); [reflexivity|].
  destruct (bits 20 23 w =? 1); [reflexivity|].
  destruct (bits 20 23 w =? 8); reflexivity.
Qed.

Lemma Mass_body_unknown :
  tag w ∉ [0xF; 0x8; 0xC; 0xB; 0x4; 0x3; 0x2; 0x1] →
  Mass_body scan_edac m tell w = Throw (UnknownKey (str (tag w))).
Proof.
  intros H. unfold Mass_body. rewrite (key_tag w Hw).
  repeat match goal with
         | |- context [tag w =? ?k] =>
             destruct (Z.eqb_spec (tag w) k) as [E|_];
             [exfalso; apply H; rewrite E; clear; set_solver|]
         end.
  reflexivity.
Qed.
End Body.

(** ** One turn of the loop at a position of the file *)

Lemma drop_word (data : list byte) pos b0 b1 b2 b3 r :
  0 <= pos →
  drop (Z.to_nat pos) data = b0 :: b1 :: b2 :: b3 :: r →
  drop (Z.to_nat (pos + 4)) data = r.
Proof.
  intros Hpos E.
  replace (Z.to_nat (pos + 4)) with (Z.to_nat pos + 4)%nat by lia.
  rewrite <- drop_drop, E. reflexivity.
Qed.

Lemma Mass_while_word scan_edac m data pos w :
  0 <= pos → word_at data pos = Some w →
  Mass_while scan_edac m pos (drop (Z.to_nat pos) data) =
    match Mass_body scan_edac m (pos + 4) w with
    | Next m' => Mass_while scan_edac m' (pos + 4) (drop (Z.to_nat (pos + 4)) data)
    | Break m' => Ok m'
    | Throw e => Raise e
    end.
Proof.
  intros Hpos. unfold word_at, head_word.
  destruct (drop (Z.to_nat pos) data) as [|b0 [|b1 [|b2 [|b3 r]]]] eqn:E;
    try discriminate.
  intros [= <-]. rewrite (drop_word _ _ _ _ _ _ _ Hpos E). reflexivity.
Qed.

Lemma Mass_while_short scan_edac m data pos :
  word_at data pos = None →
  Mass_while scan_edac m pos (drop (Z.to_nat pos) data) = Raise struct_error.
Proof.
  unfold word_at, head_word.
  destruct (drop (Z.to_nat pos) data) as [|b0 [|b1 [|b2 [|b3 r]]]];
    try discriminate; reflexivity.
Qed.

(** ** Decoding the body of a mass *)

Lemma decoded_nil e m : decoded e m [] m.
Proof.
  repeat split; try reflexivity. intros c. cbn. by rewrite app_nil_r.
Qed.

Lemma decoded_cons e m w m1 ws m2 :
  decoded e m [w] m1 → decoded e m1 ws m2 → decoded e m (w :: ws) m2.
Proof.
  intros (Ho & Hd & Hs & Ht & Hv & Hm & Hc) (Ho' & Hd' & Hs' & Ht' & Hv' & Hm' & Hc').
  cbn in Ht, Hv, Hm.
  repeat split; try congruence.
  - rewrite Ht', Ht. cbn. by destruct (last_payload 3 ws), (tag w =? 3).
  - rewrite Hv', Hv. cbn. by destruct (last_payload 4 ws), (tag w =? 4).
  - rewrite Hm', Hm. cbn. by destruct (last_payload 2 ws), (tag w =? 2).
  - intros c. rewrite Hc', Hc. cbn [values_of]. by rewrite app_nil_r, app_assoc.
Qed.

Lemma measurements_append_lookup m category v c :
  default [] (measurements (measurements_append m category v) !! c) =
    default [] (measurements m !! c)
      ++ (if bool_decide (Some category = Some c) then [v] else []).
Proof.
  cbn. rewrite lookup_insert.
  destruct (decide (category = c)) as [->|Hne].
  - by rewrite bool_decide_true.
  - rewrite bool_decide_false by congruence. by rewrite app_nil_r.
Qed.

(** A plain word makes the loop go on, with the effect [decoded] states. *)
Lemma plain_word_step e m tell w :
  0 <= w < 2 ^ 32 → plain_word w = true →
  (tag w = 0x3 → channelTime m = None) →
  ∃ m', Mass_body e m tell w = Next m' ∧ decoded e m [w] m'.
Proof.
  intros Hw Hp Htime. unfold plain_word in Hp.
  repeat (apply orb_prop in Hp as [Hp|Hp]).
  - apply Z.eqb_eq in Hp. rewrite Mass_body_BSCAN by done.
    eexists; split; [done|]. unfold decoded. cbn. rewrite !Hp. cbn.
    repeat split; try done. intros c. by rewrite app_nil_r.
  - apply Z.eqb_eq in Hp. rewrite Mass_body_B by done.
    eexists; split; [done|]. unfold decoded. cbn. rewrite !Hp. cbn.
    repeat split; try done. intros c. by rewrite app_nil_r.
  - apply Z.eqb_eq in Hp. rewrite Mass_body_MASS by done.
    eexists; split; [done|]. unfold decoded. cbn. rewrite !Hp. cbn.
    repeat split; try done. intros c. by rewrite app_nil_r.
  - apply Z.eqb_eq in Hp. rewrite Mass_body_TIME by done.
    unfold _SetAttr. cbn. rewrite (Htime Hp).
    eexists; split; [done|]. unfold decoded. cbn. rewrite !Hp. cbn.
    repeat split; try done. intros c. by rewrite app_nil_r.
  - apply andb_prop in Hp as [Hp Hnz]. apply Z.eqb_eq in Hp.
    apply negb_true_iff, Z.eqb_neq in Hnz.
    rewrite Mass_body_VOLT by done.
    eexists; split; [done|]. unfold decoded. cbn. rewrite !Hp. cbn.
    repeat split; try done. intros c. by rewrite app_nil_r.
  - apply andb_prop in Hp as [Hp Hcat]. apply Z.eqb_eq in Hp.
    apply bool_decide_eq_true in Hcat as [category Hcat].
    rewrite Mass_body_DATA, Hcat by done.
    eexists; split; [done|]. unfold decoded.
    repeat split; try (cbn; rewrite ?Hp; done).
    intros c. rewrite measurements_append_lookup. cbn [values_of].
    rewrite Hp, Hcat, app_nil_r. cbn. by f_equal.
Qed.

Lemma words_at_app data pos ws1 ws2 :
  words_at data pos (ws1 ++ ws2) ↔
  words_at data pos ws1 ∧ words_at data (pos + 4 * Z.of_nat (length ws1)) ws2.
Proof.
  revert pos. induction ws1 as [|w ws1 IH]; intros pos; cbn [words_at app length].
  - replace (pos + 4 * Z.of_nat 0) with pos by lia. tauto.
  - rewrite IH.
    replace (pos + 4 + 4 * Z.of_nat (length ws1))
      with (pos + 4 * Z.of_nat (S (length ws1))) by lia.
    tauto.
Qed.

(** The loop over the body of a mass: it reads all of it and goes on. *)
Lemma Mass_while_body e data ws :
  ∀ m pos,
    0 <= pos → words_at data pos ws → forallb plain_word ws = true →
    (count_tag 0x3 ws <= match channelTime m with Some _ => 0 | None => 1 end)%nat →
    ∃ m',
      decoded e m ws m'
      ∧ Mass_while e m pos (drop (Z.to_nat pos) data) =
        Mass_while e m' (pos + 4 * Z.of_nat (length ws))
                   (drop (Z.to_nat (pos + 4 * Z.of_nat (length ws))) data).
Proof.
  induction ws as [|w ws IH]; intros m pos Hpos Hat Hplain Htime.
  - exists m. split; [apply decoded_nil|].
    cbn [length]. by replace (pos + 4 * Z.of_nat 0) with pos by lia.
  - destruct Hat as [Hw Hat]. cbn [forallb] in Hplain.
    apply andb_prop in Hplain as [Hpw Hplain]. cbn [count_tag] in Htime.
    destruct (plain_word_step e m (pos + 4) w) as (m1 & Hbody & Hdec);
      [by eapply word_at_range|done| |].
    { intros Ht. apply Z.eqb_eq in Ht. rewrite Ht in Htime.
      destruct (channelTime m); [lia|done]. }
    destruct (IH m1 (pos + 4)) as (m2 & Hdec2 & Hrun); [lia|done|done| |].
    { destruct Hdec as (_ & _ & _ & Ht & _). rewrite Ht. cbn.
      destruct (tag w =? 3), (channelTime m); cbn in *; lia. }
    exists m2. split; [by eapply decoded_cons|].
    rewrite (Mass_while_word _ _ _ _ w) by done. rewrite Hbody, Hrun.
    cbn [length].
    by replace (pos + 4 + 4 * Z.of_nat (length ws))
      with (pos + 4 * Z.of_nat (S (length ws))) by lia.
Qed.

Lemma body_ok_split ws :
  body_ok ws = true ↔ forallb plain_word ws = true ∧ (count_tag 0x3 ws <= 1)%nat.
Proof.
  unfold body_ok. rewrite andb_true_iff, Nat.leb_le. tauto.
Qed.

(** The decoder started at [pos] on a body followed by one more word: it
    reaches that word with the body decoded. *)
Lemma Mass_init_reach e data pos ws w :
  0 <= pos → words_at data pos (ws ++ [w]) → body_ok ws = true →
  ∃ m1,
    decoded e (new_Mass pos) ws m1
    ∧ Mass_init e (Some data) pos =
      let tell := pos + 4 * Z.of_nat (length ws) + 4 in
      match Mass_body e m1 tell w with
      | Next m' => Mass_while e m' tell (drop (Z.to_nat tell) data)
      | Break m' => Ok m'
      | Throw x => Raise x
      end.
Proof.
  intros Hpos Hat Hok.
  apply words_at_app in Hat as [Hat [Hw _]].
  apply body_ok_split in Hok as [Hplain Htime].
  destruct (Mass_while_body e data ws (new_Mass pos) pos) as (m1 & Hdec & Hrun);
    [done..|].
  exists m1. split; [done|].
  unfold Mass_init, seek. cbn.
  destruct (Z.ltb_spec pos 0) as [?|_]; [lia|]. cbn.
  rewrite Hrun. apply Mass_while_word; [lia|done].
Qed.

(** A body and an end-of-mass word: the mass is complete. *)
Lemma Mass_init_record e data pos ws w :
  0 <= pos → words_at data pos (ws ++ [w]) → body_ok ws = true → tag w = 0x8 →
  ∃ m1,
    decoded e (new_Mass pos) ws m1
    ∧ Mass_init e (Some data) pos =
      Ok (set_size (set_duration m1 (payload w))
                   (4 * (Z.of_nat (length ws) + 1))).
Proof.
  intros Hpos Hat Hok Htag.
  destruct (Mass_init_reach e data pos ws w) as (m1 & Hdec & Hrun); [done..|].
  exists m1. split; [done|]. rewrite Hrun. cbn zeta.
  apply words_at_app in Hat as [_ [Hw _]].
  rewrite Mass_body_EOM by (by eapply word_at_range || done).
  destruct Hdec as (Ho & Hd & _). unfold _SetAttr. cbn [getattr setattr].
  rewrite Hd. cbn. rewrite Ho. cbn. do 2 f_equal. lia.
Qed.

(** A body and an end-of-scan word: the decoder raises [EOS]. *)
Lemma Mass_init_EOS e data pos ws w :
  0 <= pos → words_at data pos (ws ++ [w]) → body_ok ws = true → tag w = 0xF →
  Mass_init e (Some data) pos = Raise EOS.
Proof.
  intros Hpos Hat Hok Htag.
  destruct (Mass_init_reach e data pos ws w) as (m1 & Hdec & Hrun); [done..|].
  rewrite Hrun. cbn zeta.
  apply words_at_app in Hat as [_ [Hw _]].
  by rewrite Mass_body_EOS by (by eapply word_at_range || done).
Qed.

Lemma count_tag_last_payload k ws :
  (1 <= count_tag k ws)%nat → is_Some (last_payload k ws).
Proof.
  induction ws as [|w ws IH]; cbn; [lia|].
  destruct (last_payload k ws); [by eauto|].
  destruct (tag w =? k); [by eauto|]. cbn. intros H. by apply IH.
Qed.

(** ** Mass records and the masses of a scan *)

Lemma masses_match_length e pos ms rs :
  masses_match e pos ms rs → length ms = length rs.
Proof.
  revert pos rs. induction ms as [|m ms IH]; intros pos [|r rs]; cbn; try done.
  intros (_ & _ & H). f_equal. by eapply IH.
Qed.

Lemma ScanIterator_next_record scan data pos r :
  Scan_fd scan = Some data → 0 <= pos →
  words_at data pos (record_words r) → record_ok r = true →
  ∃ m,
    ScanIterator_next (mkScanIterator scan pos) =
      Ok (m, mkScanIterator scan (pos + record_size r))
    ∧ Mass_offset m = pos ∧ mass_matches (edac scan) m r.
Proof.
  intros Hfd Hpos Hat Hok. unfold record_ok in Hok.
  apply andb_prop in Hok as [Hbody Htag]. apply Z.eqb_eq in Htag.
  destruct (Mass_init_record (edac scan) data pos (body r) (eom r))
    as (m1 & Hdec & Hinit); [done..|].
  exists (set_size (set_duration m1 (payload (eom r))) (record_size r)).
  split; [|split].
  - unfold ScanIterator_next, GetMass.
    cbn [ScanIterator_scan ScanIterator_offset]. rewrite Hfd, Hinit. reflexivity.
  - cbn. by destruct Hdec as [-> _].
  - exists m1. split; [|done]. pose proof Hdec as (Ho & _).
    cbn in Ho. cbn. by rewrite Ho.
Qed.

Lemma ScanIterator_next_EOS scan data pos ws w :
  Scan_fd scan = Some data → 0 <= pos →
  words_at data pos (ws ++ [w]) → body_ok ws = true → tag w = 0xF →
  ScanIterator_next (mkScanIterator scan pos) = Raise StopIteration.
Proof.
  intros Hfd Hpos Hat Hok Htag.
  unfold ScanIterator_next, GetMass.
  cbn [ScanIterator_scan ScanIterator_offset].
  by rewrite Hfd, (Mass_init_EOS _ _ _ ws w).
Qed.

Lemma masses_from_records scan data partial eos :
  Scan_fd scan = Some data → body_ok partial = true → tag eos = 0xF →
  ∀ rs pos fuel,
    0 <= pos → (length rs < fuel)%nat →
    forallb record_ok rs = true →
    words_at data pos (scan_words rs partial eos) →
    ∃ ms,
      masses_from fuel (mkScanIterator scan pos) = Some (Ok ms)
      ∧ masses_match (edac scan) pos ms rs.
Proof.
  intros Hfd Hpartial Heos.
  induction rs as [|r rs IH]; intros pos fuel Hpos Hfuel Hok Hat.
  - destruct fuel as [|fuel]; [cbn in Hfuel; lia|].
    exists []. split; [|done]. cbn [masses_from].
    by rewrite (ScanIterator_next_EOS scan data pos partial eos).
  - destruct fuel as [|fuel]; [cbn in Hfuel; lia|].
    cbn [forallb] in Hok. apply andb_prop in Hok as [Hr Hok].
    unfold scan_words in Hat. cbn [flat_map] in Hat.
    rewrite <- app_assoc in Hat. apply words_at_app in Hat as [Hat Hrest].
    destruct (ScanIterator_next_record scan data pos r)
      as (m & Hnext & Hoff & Hm); [done..|].
    assert (Hsize : pos + 4 * Z.of_nat (length (record_words r)) = pos + record_size r).
    { unfold record_words, record_size. rewrite length_app. cbn. lia. }
    rewrite Hsize in Hrest.
    destruct (IH (pos + record_size r) fuel) as (ms & Hms & Hmatch);
      [unfold record_size; lia|cbn in Hfuel; lia|done|done|].
    exists (m :: ms). split; [|done].
    cbn [masses_from]. by rewrite Hnext, Hms.
Qed.

(** ** The iteration over the masses of a scan ends *)

Lemma Mass_body_flow e m tell w :
  match Mass_body e m tell w with
  | Next m' => Mass_offset m' = Mass_offset m
  | Break m' =>
      Mass_offset m' = Mass_offset m ∧ Mass_size m' = Some (tell - Mass_offset m)
  | Throw _ => True
  end.
Proof.
  unfold Mass_body, _SetAttr, float_div_int.
  repeat case_match; simplify_eq; try done.
  all: by destruct (duration m), (channelTime m).
Qed.

(** A completed mass spans at least its end-of-mass word and lies within
    what the handle had left to read. *)
Lemma Mass_while_size e n :
  ∀ rest m tell m',
    (length rest <= n)%nat → Mass_while e m tell rest = Ok m' →
    ∃ s, Mass_size m' = Some s
         ∧ tell + 4 <= Mass_offset m + s <= tell + Z.of_nat (length rest).
Proof.
  induction n as [|n IH]; intros rest m tell m' Hlen.
  - destruct rest; [done|cbn in Hlen; lia].
  - destruct rest as [|b0 [|b1 [|b2 [|b3 rest]]]]; try done.
    cbn [Mass_while].
    pose proof (Mass_body_flow e m (tell + 4) (unpack_I b0 b1 b2 b3)) as Hflow.
    destruct (Mass_body e m (tell + 4) (unpack_I b0 b1 b2 b3)) as [m1|m1|x];
      [|intros [= <-]|done].
    + intros Hrun. apply IH in Hrun as (s & Hs & Hbound); [|cbn in Hlen; lia].
      exists s. split; [done|]. rewrite Hflow in Hbound. cbn [length]. lia.
    + destruct Hflow as [Ho Hs]. eexists. split; [done|]. cbn [length]. lia.
Qed.

Lemma ScanIterator_next_inv it mass it' :
  ScanIterator_next it = Ok (mass, it') →
  ∃ data s,
    Scan_fd (ScanIterator_scan it) = Some data
    ∧ 0 <= ScanIterator_offset it
    ∧ Mass_size mass = Some s
    ∧ 4 <= s
    ∧ ScanIterator_offset it + s <= Z.of_nat (length data)
    ∧ it' = mkScanIterator (ScanIterator_scan it) (ScanIterator_offset it + s).
Proof.
  unfold ScanIterator_next, GetMass, Mass_init, seek.
  destruct (Scan_fd (ScanIterator_scan it)) as [data|]; [|done]. cbn.
  destruct (Z.ltb_spec (ScanIterator_offset it) 0) as [|Hpos]; [done|]. cbn.
  destruct (Mass_while _ _ _ _) as [m|x] eqn:Hrun; [|by destruct x].
  cbn. apply (Mass_while_size _ _ _ _ _ _ (Nat.le_refl _)) in Hrun
    as (s & Hs & Hbound).
  rewrite Hs. intros [= <- <-]. exists data, s. cbn [Mass_offset new_Mass] in Hbound.
  rewrite length_drop in Hbound. repeat split; try done; lia.
Qed.

Lemma masses_from_total fuel :
  ∀ it,
    (0 < fuel)%nat →
    (0 <= ScanIterator_offset it →
     Z.of_nat (length (default [] (Scan_fd (ScanIterator_scan it))))
       - ScanIterator_offset it < Z.of_nat fuel) →
    is_Some (masses_from fuel it).
Proof.
  induction fuel as [|fuel IH]; intros it Hfuel Hbound; [lia|].
  cbn [masses_from].
  destruct (ScanIterator_next it) as [[mass it']|x] eqn:Hnext;
    [|by destruct x].
  apply ScanIterator_next_inv in Hnext
    as (data & s & Hfd & Hpos & Hs & Hs4 & Hend & ->).
  rewrite Hfd in Hbound. cbn in Hbound. specialize (Hbound Hpos).
  destruct (IH (mkScanIterator (ScanIterator_scan it) (ScanIterator_offset it + s)))
    as [[ms|x] ->]; [lia| |done..].
  cbn. rewrite Hfd. cbn. lia.
Qed.

(** [list(scan)] always has an outcome: the fuel of [Scan_masses] is enough. *)
Lemma Scan_masses_total scan : is_Some (Scan_masses scan).
Proof.
  unfold Scan_masses, Scan_iter, ScanIterator_init.
  destruct (Scan_fd scan) as [data|] eqn:Hfd; [|done]. cbn -[masses_from].
  apply masses_from_total; [lia|]. cbn. rewrite Hfd. cbn. lia.
Qed.

(** A file that holds words from [pos] on is long enough to hold them. *)
Lemma word_at_length data pos w :
  0 <= pos → word_at data pos = Some w → pos + 4 <= Z.of_nat (length data).
Proof.
  intros Hpos. unfold word_at, head_word.
  destruct (drop (Z.to_nat pos) data) as [|b0 [|b1 [|b2 [|b3 r]]]] eqn:E;
    try done.
  intros _. apply (f_equal length) in E. rewrite length_drop in E. cbn in E. lia.
Qed.

Lemma words_at_length data ws :
  ∀ pos, 0 <= pos → ws ≠ [] → words_at data pos ws →
         pos + 4 * Z.of_nat (length ws) <= Z.of_nat (length data).
Proof.
  induction ws as [|w ws IH]; intros pos Hpos Hne Hat; [done|].
  destruct Hat as [Hw Hat]. destruct ws as [|w' ws].
  - apply word_at_length in Hw; [|done]. cbn. lia.
  - specialize (IH (pos + 4)). cbn [length] in *.
    assert (pos + 4 + 4 * Z.of_nat (S (length ws)) <= Z.of_nat (length data))
      by (apply IH; [lia|done|done]).
    lia.
Qed.

(** ** Blocks of words: the file header, the index and the scan headers *)

Lemma head_word_take bs n : (4 <= n)%nat → head_word (take n bs) = head_word bs.
Proof.
  intros Hn.
  destruct n as [|[|[|[|n]]]]; try lia.
  by destruct bs as [|b0 [|b1 [|b2 [|b3 r]]]].
Qed.

Lemma le_words_lookup i : ∀ bs, le_words bs !! i = head_word (drop (4 * i) bs).
Proof.
  induction i as [|i IH]; intros bs.
  - by destruct bs as [|b0 [|b1 [|b2 [|b3 r]]]].
  - replace (4 * S i)%nat with (4 + 4 * i)%nat by lia.
    destruct bs as [|b0 [|b1 [|b2 [|b3 r]]]]; cbn; done.
Qed.

Lemma le_words_length n : ∀ bs, length bs = (4 * n)%nat → length (le_words bs) = n.
Proof.
  induction n as [|n IH]; intros bs Hlen.
  - by destruct bs.
  - destruct bs as [|b0 [|b1 [|b2 [|b3 r]]]]; cbn in Hlen; try lia.
    cbn [le_words length]. f_equal. apply IH. lia.
Qed.

(** The word at [q] of the block of [n] bytes read at [p]. *)
Lemma word_at_read data p n q :
  0 <= p → 0 <= q → q + 4 <= n →
  head_word (drop (Z.to_nat q) (read (drop (Z.to_nat p) data) n)) =
    word_at data (p + q).
Proof.
  intros Hp Hq Hn. unfold read, word_at.
  rewrite skipn_firstn_comm, head_word_take by lia.
  rewrite drop_drop. f_equal. f_equal. lia.
Qed.

(** Reading [n] words at [p] of a file that holds them. *)
Lemma unpack_Is_read data p n :
  0 <= p → 0 <= n → p + 4 * n <= Z.of_nat (length data) →
  ∃ ws,
    unpack_Is n (read (drop (Z.to_nat p) data) (4 * n)) = Ok ws
    ∧ Z.of_nat (length ws) = n
    ∧ ∀ i, 0 <= i < n → ws !! Z.to_nat i = word_at data (p + 4 * i).
Proof.
  intros Hp Hn Hlen.
  assert (Hread : length (read (drop (Z.to_nat p) data) (4 * n)) = (4 * Z.to_nat n)%nat).
  { unfold read. rewrite length_take, length_drop. lia. }
  exists (le_words (read (drop (Z.to_nat p) data) (4 * n))). repeat split.
  - unfold unpack_Is. rewrite Hread.
    destruct (Z.eqb_spec (Z.of_nat (4 * Z.to_nat n)) (4 * n)); [done|lia].
  - rewrite (le_words_length (Z.to_nat n)) by done. lia.
  - intros i Hi. rewrite le_words_lookup.
    replace (4 * Z.to_nat i)%nat with (Z.to_nat (4 * i)) by lia.
    apply word_at_read; lia.
Qed.

(** A block shorter than asked for makes [struct.unpack] raise. *)
Lemma unpack_Is_short data p n :
  0 <= p → 0 < n → Z.of_nat (length data) < p + 4 * n →
  unpack_Is n (read (drop (Z.to_nat p) data) (4 * n)) = Raise struct_error.
Proof.
  intros Hp Hn Hlen. unfold unpack_Is, read.
  rewrite length_take, length_drop.
  destruct (Z.eqb_spec (Z.of_nat (Z.to_nat (4 * n) `min` (length data - Z.to_nat p)))
              (4 * n)); [lia|done].
Qed.

Lemma tuple_get_nonneg t i x :
  0 <= i → t !! Z.to_nat i = Some x → tuple_get t i = Ok x.
Proof.
  intros Hi Hx. unfold tuple_get.
  pose proof (lookup_lt_Some _ _ _ Hx) as Hlt.
  assert (E : (i <? 0) = false) by (apply Z.ltb_ge; lia).
  cbn zeta. rewrite E. cbn iota. rewrite E.
  replace (Z.of_nat (length t) <=? i) with false by (symmetry; apply Z.leb_gt; lia).
  cbn [orb]. by rewrite Hx.
Qed.

Lemma tuple_get_negative t i x :
  i < 0 → 0 <= i + Z.of_nat (length t) →
  t !! Z.to_nat (i + Z.of_nat (length t)) = Some x → tuple_get t i = Ok x.
Proof.
  intros Hi Hwrap Hx. unfold tuple_get.
  pose proof (lookup_lt_Some _ _ _ Hx) as Hlt.
  assert (E : (i <? 0) = true) by (apply Z.ltb_lt; lia).
  cbn zeta. rewrite E. cbn iota.
  replace (i + Z.of_nat (length t) <? 0) with false
    by (symmetry; apply Z.ltb_ge; lia).
  replace (Z.of_nat (length t) <=? i + Z.of_nat (length t)) with false
    by (symmetry; apply Z.leb_gt; lia).
  cbn [orb]. by rewrite Hx.
Qed.

(** Indexing a tuple does not fail within its bounds. *)
Lemma tuple_get_Ok t i :
  0 <= i < Z.of_nat (length t) → ∃ x, t !! Z.to_nat i = Some x ∧ tuple_get t i = Ok x.
Proof.
  intros Hi. destruct (lookup_lt_is_Some_2 t (Z.to_nat i)) as [x Hx]; [lia|].
  exists x. split; [done|]. apply tuple_get_nonneg; [lia|done].
Qed.

(** ** The file header and the scan headers *)

(** Constructing a [DatFile] from a file that holds the header block and the
    index table the header points at: the two blocks of words it reads. *)
Lemma DatFile_init_blocks data N O :
  0x10 + 85 * 4 <= Z.of_nat (length data) →
  field data 0x10 39 = Some N →
  field data 0x10 33 = Some O →
  O + 4 + 4 * N <= Z.of_nat (length data) →
  ∃ vals offs ts,
    Z.of_nat (length vals) = 85
    ∧ (∀ k, 0 <= k < 85 → vals !! Z.to_nat k = field data 0x10 k)
    ∧ Z.of_nat (length offs) = N
    ∧ (∀ i, 0 <= i < N → offs !! Z.to_nat i = field data (O + 4) i)
    ∧ vals !! Z.to_nat 40 = Some ts
    ∧ DatFile_init data = Ok (mkDatFile data None ts N O vals offs).
Proof.
  intros Hlen HN HO Hindex. unfold field in *.
  destruct (unpack_Is_read data 0x10 85) as (vals & Hvals & Hvlen & Hv); [lia..|].
  destruct (tuple_get_Ok vals 40) as (ts & Hts & Hgts); [lia|].
  assert (HvN : vals !! Z.to_nat 39 = Some N) by (rewrite Hv by lia; exact HN).
  assert (HvO : vals !! Z.to_nat 33 = Some O) by (rewrite Hv by lia; exact HO).
  pose proof (word_at_range _ _ _ HN) as HNr.
  pose proof (word_at_range _ _ _ HO) as HOr.
  destruct (unpack_Is_read data (O + 4) N) as (offs & Hoffs & Holen & Ho); [lia..|].
  exists vals, offs, ts. repeat split; try done.
  unfold DatFile_init, seek, HDR_TIMESTAMP, HDR_INDEX_LEN, HDR_INDEX_OFFSET.
  change (0x10 <? 0) with false. cbn [mbind result_bind].
  change (85 * 4) with (4 * 85). rewrite Hvals. cbn [mbind result_bind].
  rewrite Hgts, (tuple_get_nonneg vals 39 N), (tuple_get_nonneg vals 33 O)
    by (done || lia).
  cbn [mbind result_bind].
  destruct (Z.ltb_spec (O + 4) 0) as [?|_]; [lia|]. cbn [mbind result_bind].
  rewrite (Z.mul_comm N 4), Hoffs. reflexivity.
Qed.

(** A file too short for the header block cannot be constructed. *)
Lemma DatFile_init_short data :
  Z.of_nat (length data) < 0x10 + 85 * 4 → DatFile_init data = Raise struct_error.
Proof.
  intros Hlen. unfold DatFile_init, seek.
  change (0x10 <? 0) with false. cbn [mbind result_bind].
  change (85 * 4) with (4 * 85). by rewrite unpack_Is_short by lia.
Qed.

(** Decoding the scan header at [off] of an open file that holds it. *)
Lemma Scan_init_ok dat data off :
  fd dat = Some data → 0 <= off → off + 188 <= Z.of_nat (length data) →
  ∃ s,
    Scan_init dat off = Ok s
    ∧ Scan_fd s = Some data ∧ Scan_offset s = off + 188 ∧ headerSize s = 188
    ∧ Z.of_nat (length (Scan_vals s)) = 47
    ∧ (∀ k, 0 <= k < 47 → Scan_vals s !! Z.to_nat k = field data off k)
    ∧ Some (number s) = field data off 9
    ∧ Some (delta s) = field data off 7
    ∧ Some (acf s) = field data off 12
    ∧ Some (time s) = field data off 19
    ∧ Some (fcf s) = field data off 35
    ∧ Some (edac s) = field data off 31.
Proof.
  intros Hfd Hoff Hlen.
  destruct (unpack_Is_read data off 47) as (vals & Hvals & Hvlen & Hv); [lia..|].
  destruct (tuple_get_Ok vals 9) as (x9 & H9 & G9); [lia|].
  destruct (tuple_get_Ok vals 7) as (x7 & H7 & G7); [lia|].
  destruct (tuple_get_Ok vals 12) as (x12 & H12 & G12); [lia|].
  destruct (tuple_get_Ok vals 19) as (x19 & H19 & G19); [lia|].
  destruct (tuple_get_Ok vals 35) as (x35 & H35 & G35); [lia|].
  destruct (tuple_get_Ok vals 31) as (x31 & H31 & G31); [lia|].
  exists (mkScan 188 x9 x7 x12 x19 x35 x31 vals (Some data) (off + 188)).
  split; [|repeat split; try done; cbn; unfold field; by rewrite <- Hv by lia].
  unfold Scan_init, seek. rewrite Hfd.
  destruct (Z.ltb_spec off 0) as [?|_]; [lia|]. cbn [mbind result_bind].
  change (47 * 4 / 4) with 47. change (47 * 4) with (4 * 47).
  rewrite Hvals. cbn [mbind result_bind].
  rewrite G9, G7, G12, G19, G35, G31. reflexivity.
Qed.

(** A scan header never makes [Scan.__init__] raise [IndexError]. *)
Lemma Scan_init_no_IndexError dat off msg : Scan_init dat off ≠ Raise (IndexError msg).
Proof.
  unfold Scan_init, seek.
  destruct (fd dat) as [data|]; [|done].
  destruct (off <? 0); [done|]. cbn [mbind result_bind].
  unfold unpack_Is.
  destruct (Z.eqb_spec (Z.of_nat (length (read (drop (Z.to_nat off) data) (47 * 4))))
              (4 * (47 * 4 / 4))) as [Hlen|_]; [|done].
  cbn [mbind result_bind].
  assert (Hv : length (le_words (read (drop (Z.to_nat off) data) (47 * 4))) = 47%nat).
  { apply le_words_length. change (4 * (47 * 4 / 4)) with 188 in Hlen. lia. }
  set (vals := le_words _) in *.
  destruct (tuple_get_Ok vals 9) as (x9 & _ & ->); [lia|].
  destruct (tuple_get_Ok vals 7) as (x7 & _ & ->); [lia|].
  destruct (tuple_get_Ok vals 12) as (x12 & _ & ->); [lia|].
  destruct (tuple_get_Ok vals 19) as (x19 & _ & ->); [lia|].
  destruct (tuple_get_Ok vals 35) as (x35 & _ & ->); [lia|].
  destruct (tuple_get_Ok vals 31) as (x31 & _ & ->); [lia|].
  done.
Qed.

(** ** Random access to the scans *)

Lemma GetScan_closed dat index : fd dat = None → GetScan dat index = Raise NotOpen.
Proof. intros Hfd. unfold GetScan. by rewrite Hfd. Qed.

Lemma GetScan_out_of_range dat data index :
  fd dat = Some data → NumScans dat <= index →
  GetScan dat index =
    Raise (IndexError ("Scan index out of range: " +:+ str index +:+ " >= "
                         +:+ str (NumScans dat))).
Proof.
  intros Hfd Hi. unfold GetScan, NumScans in *. rewrite Hfd. cbn [_CheckOpen mbind result_bind].
  by destruct (Z.leb_spec (Z.of_nat (length (offsets dat))) index); [|lia].
Qed.

Lemma GetScan_in_range dat data index :
  fd dat = Some data → 0 <= index < NumScans dat →
  ∃ off, offsets dat !! Z.to_nat index = Some off
         ∧ GetScan dat index = Scan_init dat off.
Proof.
  intros Hfd Hi. unfold NumScans in Hi.
  destruct (tuple_get_Ok (offsets dat) index) as (off & Hoff & Hget); [done|].
  exists off. split; [done|].
  unfold GetScan. rewrite Hfd. cbn [_CheckOpen mbind result_bind].
  destruct (Z.leb_spec (Z.of_nat (length (offsets dat))) index); [lia|].
  by rewrite Hget.
Qed.

Lemma GetScan_wraps dat data index :
  fd dat = Some data → - NumScans dat <= index < 0 →
  ∃ off, offsets dat !! Z.to_nat (NumScans dat + index) = Some off
         ∧ GetScan dat index = Scan_init dat off.
Proof.
  intros Hfd Hi. unfold NumScans in *.
  destruct (lookup_lt_is_Some_2 (offsets dat)
              (Z.to_nat (Z.of_nat (length (offsets dat)) + index)))
    as [off Hoff]; [lia|].
  exists off. split; [done|].
  unfold GetScan. rewrite Hfd. cbn [_CheckOpen mbind result_bind].
  destruct (Z.leb_spec (Z.of_nat (length (offsets dat))) index); [lia|].
  rewrite (tuple_get_negative _ _ off); [done|lia|lia|].
  by rewrite Z.add_comm.
Qed.

Lemma length_flat_map_record_words rs :
  (length rs <= length (flat_map record_words rs))%nat.
Proof.
  induction rs as [|r rs IH]; [done|].
  cbn [flat_map]. unfold record_words at 1. rewrite !length_app. cbn. lia.
Qed.

(** The words of a scan take more bytes than it has complete records. *)
Lemma scan_words_fuel data pos rs partial eos :
  0 <= pos → words_at data pos (scan_words rs partial eos) →
  (length rs < S (length data))%nat.
Proof.
  intros Hpos Hat. apply words_at_length in Hat; [|done|].
  - unfold scan_words in Hat. rewrite !length_app in Hat. cbn in Hat.
    pose proof (length_flat_map_record_words rs). lia.
  - unfold scan_words. by destruct (flat_map record_words rs), partial.
Qed.

(** [list(scan)] on an open scan: the loop over a fresh iterator. *)
Lemma Scan_masses_open scan data :
  Scan_fd scan = Some data →
  Scan_masses scan =
    masses_from (S (length data)) (mkScanIterator scan (Scan_offset scan)).
Proof.
  intros Hfd. unfold Scan_masses, Scan_iter, ScanIterator_init.
  rewrite Hfd. reflexivity.
Qed.

(** A complete mass record decodes to the attributes its words encode. *)
Lemma Mass_init_record_attributes e data pos ws w :
  0 <= pos → words_at data pos (ws ++ [w]) → body_ok ws = true → tag w = 0x8 →
  ∃ m,
    Mass_init e (Some data) pos = Ok m
    ∧ duration m = Some (payload w)
    ∧ channelTime m = last_payload 0x3 ws
    ∧ acceleratingVoltage m = volt_formula e <$> last_payload 0x4 ws
    ∧ magnetMass m = (λ p, float_of_Z p * 1 / 262144)%float <$> last_payload 0x2 ws
    ∧ ∀ c, default [] (measurements m !! c) = values_of c ws.
Proof.
  intros Hpos Hat Hok Htag.
  destruct (Mass_init_record e data pos ws w) as (m1 & Hdec & Hinit); [done..|].
  destruct Hdec as (_ & _ & _ & Ht & Hv & Hm & Hc).
  eexists. split; [exact Hinit|]. cbn. repeat split.
  - rewrite Ht. by destruct (last_payload 3 ws).
  - rewrite Hv. by destruct (last_payload 4 ws).
  - rewrite Hm. by destruct (last_payload 2 ws).
  - intros c. by rewrite Hc.
Qed.

(** The decoding examples of the specification. *)
Example MASS_payload_one :
  Mass_body 0 (new_Mass 0) 4 0x20040000 = Next (set_magnetMass (new_Mass 0) 1%float).
Proof. reflexivity. Qed.

Example DATA_plus_five :
  Mass_body 0 (new_Mass 0) 4 0x10000005 =
    Next (measurements_append (new_Mass 0) "analog" 5).
Proof. reflexivity. Qed.

Example DATA_minus_five :
  Mass_body 0 (new_Mass 0) 4 0x11000005 =
    Next (measurements_append (new_Mass 0) "analog" (-5)).
Proof. reflexivity. Qed.

Example unknown_key_five :
  Mass_body 0 (new_Mass 0) 4 0x50000000 = Throw (UnknownKey "5").
Proof. reflexivity. Qed.

(** * The claims of the specification *)



(** C2.  The decoder reaches a word of tag 0x8 (EOM): the mass is complete,
    its duration is the payload of that word and its size is the number of
    bytes from the start of the mass to the end of the EOM word, four for
    every word read; [__next__] yields the mass and moves the cursor by that
    size, to the byte after the EOM word, where the next mass is decoded. *)
Theorem C2_end_of_mass scan data pos ws w :
  Scan_fd scan = Some data → 0 <= pos →
  body_ok ws = true → tag w = KEY_EOM →
  words_at data pos (ws ++ [w]) →
  let eom_pos := pos + 4 * Z.of_nat (length ws) in
  ∃ m,
    Mass_init (edac scan) (Some data) pos = Ok m
    ∧ Mass_offset m = pos
    ∧ duration m = Some (payload w)
    ∧ Mass_size m = Some (eom_pos + 4 - pos)
    ∧ Mass_size m = Some (4 * Z.of_nat (length (ws ++ [w])))
    ∧ ScanIterator_next (mkScanIterator scan pos) =
        Ok (m, mkScanIterator scan (eom_pos + 4))
    ∧ GetMass scan (eom_pos + 4) =
        match Mass_init (edac scan) (Some data) (eom_pos + 4) with
        | Ok mass => Ok (Some mass)
        | Raise EOS => Ok None
        | Raise x => Raise x
        end.
Proof.
  intros Hfd Hpos Hok Htag Hat eom_pos.
  destruct (ScanIterator_next_record scan data pos (mkRecord ws w))
    as (m & Hnext & Hoff & m1 & Hdec & Hm); [done..| |].
  { unfold record_ok. cbn. rewrite Hok. by apply Z.eqb_eq. }
  destruct (Mass_init_record (edac scan) data pos ws w)
    as (m1' & Hdec' & Hinit); [done..|].
  assert (Hmm : m = set_size (set_duration m1' (payload w))
                      (4 * (Z.of_nat (length ws) + 1))).
  { unfold ScanIterator_next, GetMass in Hnext.
    cbn [ScanIterator_scan ScanIterator_offset] in Hnext.
    rewrite Hfd, Hinit in Hnext. cbn in Hnext. congruence. }
  unfold record_size in Hnext. cbn [body length] in Hnext.
  exists m. repeat split.
  - by rewrite Hinit, Hmm.
  - done.
  - by rewrite Hmm.
  - rewrite Hmm. cbn. f_equal. unfold eom_pos. lia.
  - rewrite Hmm. cbn. f_equal. rewrite length_app. cbn. lia.
  - rewrite Hnext. do 3 f_equal. unfold eom_pos. lia.
  - unfold GetMass. by rewrite Hfd.
Qed.

Lemma C2_end_of_mass_witness :
  ∃ m, ScanIterator_next (mkScanIterator (sample_scan sample_stream) 552) =
         Ok (m, mkScanIterator (sample_scan sample_stream) 560)
       ∧ duration m = Some 100 ∧ Mass_size m = Some 8.
Proof.
  destruct (C2_end_of_mass (sample_scan sample_stream) (sample_file sample_stream)
              552 [0x1000000A] 0x80000064)
    as (m & _ & _ & Hd & Hs & _ & Hnext & _).
  - reflexivity.
  - lia.
  - vm_compute. reflexivity.
  - reflexivity.
  - vm_compute. tauto.
  - exists m. split; [exact Hnext|]. split; [exact Hd|exact Hs].
Defined.

(** C3.  A scan whose mass stream is well formed (complete mass records,
    then the words of an unfinished mass, then a word of tag 0xF): iterating
    its masses ends at that word with no error, and yields one mass per
    complete record and none for the words after the last EOM word. *)
Theorem C3_iteration_ends_at_EOS scan data rs partial eos :
  Scan_fd scan = Some data → 0 <= Scan_offset scan →
  forallb record_ok rs = true → body_ok partial = true → tag eos = KEY_EOS →
  words_at data (Scan_offset scan) (scan_words rs partial eos) →
  ∃ ms,
    Scan_masses scan = Some (Ok ms)
    ∧ length ms = length rs
    ∧ masses_match (edac scan) (Scan_offset scan) ms rs.
Proof.
  intros Hfd Hpos Hrs Hpartial Heos Hat.
  destruct (masses_from_records scan data partial eos Hfd Hpartial Heos rs
              (Scan_offset scan) (S (length data)))
    as (ms & Hms & Hmatch); [done|by eapply scan_words_fuel|done..|].
  exists ms. rewrite (Scan_masses_open scan data Hfd).
  split; [exact Hms|]. split; [|exact Hmatch].
  by eapply masses_match_length.
Qed.

Lemma C3_iteration_ends_at_EOS_witness :
  ∃ ms, Scan_masses (sample_scan [0x1000000A; 0x80000064; 0x30000007; 0xF0000000])
          = Some (Ok ms)
        ∧ length ms = 1%nat.
Proof.
  destruct (C3_iteration_ends_at_EOS
              (sample_scan [0x1000000A; 0x80000064; 0x30000007; 0xF0000000])
              (sample_file [0x1000000A; 0x80000064; 0x30000007; 0xF0000000])
              [mkRecord [0x1000000A] 0x80000064] [0x30000007] 0xF0000000)
    as (ms & Hms & Hlen & _).
  - reflexivity.
  - vm_compute. discriminate.
  - vm_compute. reflexivity.
  - vm_compute. reflexivity.
  - reflexivity.
  - vm_compute. tauto.
  - exists ms. split; [exact Hms|exact Hlen].
Defined.

(** C4.  [channelTime] (tag 0x3) and [duration] (tag 0x8) are set once:
    writing either attribute when it already has a value raises the
    exception "<name> is already set", and a mass whose words hold a second
    TIME word fails to decode with that exception.  (The first EOM word ends
    the mass, so no mass reads a second one.) *)
Theorem C4_set_once_attributes m name value old e data pos ws w :
  (getattr m name = Some old →
   _SetAttr m name value = Raise (Exception (attr_name name +:+ " is already set")))
  ∧ (0 <= pos → forallb plain_word ws = true → count_tag KEY_TIME ws = 1%nat →
     tag w = KEY_TIME → words_at data pos (ws ++ [w]) →
     Mass_init e (Some data) pos = Raise (Exception "channelTime is already set")).
Proof.
  split.
  - intros Hget. unfold _SetAttr. by rewrite Hget.
  - intros Hpos Hplain Hcount Htag Hat.
    destruct (Mass_init_reach e data pos ws w) as (m1 & Hdec & Hrun); [done..| |].
    { apply body_ok_split. unfold KEY_TIME in Hcount. split; [done|lia]. }
    rewrite Hrun. cbn zeta.
    apply words_at_app in Hat as [_ [Hw _]].
    rewrite Mass_body_TIME by (by eapply word_at_range || done).
    destruct Hdec as (_ & _ & _ & Ht & _).
    destruct (count_tag_last_payload 3 ws) as [t Hlast];
      [unfold KEY_TIME in Hcount; lia|].
    rewrite Hlast in Ht. cbn in Ht.
    unfold _SetAttr. cbn [getattr]. by rewrite Ht.
Qed.

Lemma C4_set_once_attributes_witness :
  _SetAttr (set_duration (new_Mass 0) 5) attr_duration 6 =
    Raise (Exception "duration is already set")
  ∧ Mass_init 1000 (Some (sample_file [0x30000001; 0x1000000A; 0x30000002])) 552 =
    Raise (Exception "channelTime is already set").
Proof.
  pose proof (C4_set_once_attributes (set_duration (new_Mass 0) 5) attr_duration
                6 5 1000 (sample_file [0x30000001; 0x1000000A; 0x30000002]) 552
                [0x30000001; 0x1000000A] 0x30000002) as [H1 H2].
  split.
  - apply H1. reflexivity.
  - apply H2.
    + lia.
    + vm_compute. reflexivity.
    + vm_compute. reflexivity.
    + reflexivity.
    + vm_compute. tauto.
Defined.

(** C5.  End to end: a file whose header gives an index of one entry, that
    entry pointing at a 188-byte scan header followed by a DATA word of
    analog value 10, an EOM word of payload 100 and an EOS word.
    Constructing the [DatFile] gives [NumScans() = 1]; once the file is open
    the scan is read, and iterating it yields exactly one mass, whose analog
    measurements are [10] and whose duration is 100. *)
Theorem C5_end_to_end data O off w_data w_eom w_eos :
  0x10 + 85 * 4 <= Z.of_nat (length data) →
  field data 0x10 HDR_INDEX_LEN = Some 1 →
  field data 0x10 HDR_INDEX_OFFSET = Some O →
  word_at data (O + 4) = Some off →
  off + 188 <= Z.of_nat (length data) →
  words_at data (off + 188) [w_data; w_eom; w_eos] →
  tag w_data = KEY_DATA → bits 20 23 w_data = DATA_ANALOG → word_value w_data = 10 →
  tag w_eom = KEY_EOM → payload w_eom = 100 →
  tag w_eos = KEY_EOS →
  ∃ dat scan m,
    DatFile_init data = Ok dat
    ∧ NumScans dat = 1
    ∧ GetScan (Open dat) 0 = Ok scan
    ∧ DatFileIterator_next (DatFile_iter (Open dat)) =
        Ok (scan, mkDatFileIterator (Open dat) 1)
    ∧ DatFileIterator_next (mkDatFileIterator (Open dat) 1) = Raise StopIteration
    ∧ Scan_masses scan = Some (Ok [m])
    ∧ measurements m !! "analog" = Some [10]
    ∧ duration m = Some 100.
Proof.
  intros Hlen HN HO Hoff Hscan Hat Hdata Htype Hvalue Heom Hdur Heos.
  pose proof (word_at_range _ _ _ HO) as HOr.
  pose proof (word_at_range _ _ _ Hoff) as Hoffr.
  assert (Hindex : O + 4 + 4 <= Z.of_nat (length data))
    by (apply (word_at_length data (O + 4) off); [lia|done]).
  destruct (DatFile_init_blocks data 1 O) as
    (vals & offs & ts & _ & _ & Hnum & Hoffs & _ & Hinit); [done..|lia|].
  set (dat := mkDatFile data None ts 1 O vals offs) in *.
  assert (Hopen : fd (Open dat) = Some data) by done.
  destruct (GetScan_in_range (Open dat) data 0) as (off' & Hoff' & Hget);
    [done|unfold NumScans in *; cbn; lia|].
  unfold dat in Hoff'. cbn [Open set_fd offsets] in Hoff'.
  rewrite (Hoffs 0) in Hoff' by lia.
  unfold field in Hoff'. replace (O + 4 + 4 * 0) with (O + 4) in Hoff' by lia.
  assert (off' = off) as -> by congruence.
  destruct (Scan_init_ok (Open dat) data off) as
    (scan & Hscan_init & Hsfd & Hsoff & _); [done|lia|done|].
  rewrite Hscan_init in Hget.
  assert (Hat' : words_at data (Scan_offset scan)
                   (scan_words [mkRecord [w_data] w_eom] [] w_eos))
    by (by rewrite Hsoff).
  destruct (masses_from_records scan data [] w_eos Hsfd eq_refl Heos
              [mkRecord [w_data] w_eom] (Scan_offset scan) (S (length data)))
    as (ms & Hms & Hmatch);
    [lia|eapply scan_words_fuel; [|exact Hat']; lia| |done|].
  { cbn. unfold record_ok, body_ok, plain_word. cbn.
    rewrite Hdata, Htype, Heom. reflexivity. }
  rewrite <- (Scan_masses_open scan data Hsfd) in Hms.
  destruct ms as [|m [|m' ms]]; cbn in Hmatch; try tauto.
  destruct Hmatch as (_ & (m1 & Hdec & Hm) & _).
  exists dat, scan, m. repeat split; try done.
  - unfold DatFileIterator_next, DatFile_iter. cbn [DatFileIterator_dat DatFileIterator_i].
    replace (NumScans (Open dat)) with 1 by done.
    change (1 <=? 0) with false. cbn iota. by rewrite Hget.
  - unfold DatFileIterator_next. cbn [DatFileIterator_dat DatFileIterator_i].
    by replace (NumScans (Open dat)) with 1 by done.
  - destruct Hdec as (_ & _ & _ & _ & _ & _ & Hc). specialize (Hc "analog").
    rewrite Hm. cbn in Hc |- *. rewrite Hdata, Htype, Hvalue in Hc. cbn in Hc.
    by destruct (measurements m1 !! "analog"); cbn in Hc; simplify_eq.
  - rewrite Hm. cbn. by rewrite Hdur.
Qed.

Lemma C5_end_to_end_witness :
  ∃ dat scan m,
    DatFile_init (sample_file sample_stream) = Ok dat
    ∧ NumScans dat = 1
    ∧ GetScan (Open dat) 0 = Ok scan
    ∧ Scan_masses scan = Some (Ok [m])
    ∧ measurements m !! "analog" = Some [10]
    ∧ duration m = Some 100.
Proof.
  destruct (C5_end_to_end (sample_file sample_stream) 356 364
              0x1000000A 0x80000064 0xF0000000)
    as (dat & scan & m & H1 & H2 & H3 & _ & _ & H4 & H5 & H6).
  - vm_compute. discriminate.
  - vm_compute. reflexivity.
  - vm_compute. reflexivity.
  - vm_compute. reflexivity.
  - vm_compute. discriminate.
  - vm_compute. tauto.
  - reflexivity.
  - reflexivity.
  - reflexivity.
  - reflexivity.
  - reflexivity.
  - reflexivity.
  - exists dat, scan, m. tauto.
Defined.

(** C6.  Access to the scans is under the precondition of an open handle:
    [GetScan] checks that the file is open before it looks at the index, and
    on a [DatFile] that is not open it raises [NotOpen] for every index.  On
    an open [DatFile] and for a non-negative
    index [i], [GetScan(i)] raises [IndexError] if and only if
    [i >= NumScans]; for [i < NumScans] it decodes the scan at [offsets[i]],
    and when that 188-byte header lies within the file it returns the scan
    whose [number] is field 9 of the header. *)
Theorem C6_GetScan_open dat data i :
  (fd dat = None → GetScan dat i = Raise NotOpen)
  ∧ (fd dat = Some data → 0 <= i →
  ((∃ msg, GetScan dat i = Raise (IndexError msg)) ↔ NumScans dat <= i)
  ∧ (i < NumScans dat →
     ∃ off,
       offsets dat !! Z.to_nat i = Some off
       ∧ GetScan dat i = Scan_init dat off
       ∧ (0 <= off → off + 188 <= Z.of_nat (length data) →
          ∃ scan,
            GetScan dat i = Ok scan
            ∧ Some (number scan) = field data off 9
            ∧ Scan_offset scan = off + 188))).
Proof.
  split; [apply GetScan_closed|].
  intros Hfd Hi. split; [split|].
  - intros [msg Hraise].
    destruct (Z.le_gt_cases (NumScans dat) i) as [|Hlt]; [done|].
    destruct (GetScan_in_range dat data i) as (off & _ & Hget); [done|lia|].
    rewrite Hget in Hraise. by apply Scan_init_no_IndexError in Hraise.
  - intros Hge. eexists. by apply (GetScan_out_of_range dat data).
  - intros Hlt.
    destruct (GetScan_in_range dat data i) as (off & Hoff & Hget); [done|lia|].
    exists off. repeat split; [done..|].
    intros Hoff0 Hlen.
    destruct (Scan_init_ok dat data off)
      as (scan & Hscan & _ & Hso & _ & _ & _ & Hnum & _); [done..|].
    exists scan. by rewrite Hget.
Qed.

Lemma C6_GetScan_open_witness :
  (∃ scan, GetScan (Open sample_dat) 0 = Ok scan ∧ number scan = 7)
  ∧ ∃ msg, GetScan (Open sample_dat) 1 = Raise (IndexError msg).
Proof.
  split.
  - destruct (C6_GetScan_open (Open sample_dat) (sample_file sample_stream) 0)
      as [_ Hopen].
    destruct Hopen as [_ Hin]; [reflexivity|lia|].
    destruct Hin as (off & Hoff & _ & Hscan); [vm_compute; reflexivity|].
    vm_compute in Hoff. injection Hoff as <-.
    destruct Hscan as (scan & Hget & Hnum & _);
      [lia|vm_compute; discriminate|].
    exists scan. split; [exact Hget|].
    assert (E : field (sample_file sample_stream) 364 9 = Some 7)
      by (vm_compute; reflexivity).
    rewrite E in Hnum. injection Hnum as Hnum. exact Hnum.
  - apply (proj2 (C6_GetScan_open (Open sample_dat) (sample_file sample_stream) 1));
      [reflexivity|lia|vm_compute; discriminate].
Defined.

(** The precondition at work: on the sample file before it is opened, an
    index out of the range makes [GetScan] raise [NotOpen], the check of the
    handle coming first. *)
Example GetScan_before_Open_out_of_range :
  DatFile_init (sample_file sample_stream) = Ok sample_dat
  ∧ 0 <= 1 ∧ NumScans sample_dat <= 1
  ∧ GetScan sample_dat 1 = Raise NotOpen
  ∧ ¬ ∃ msg, GetScan sample_dat 1 = Raise (IndexError msg).
Proof.
  repeat split; try (vm_compute; (reflexivity || discriminate)).
  intros [msg H]. vm_compute in H. discriminate.
Qed.

(** Within the range of the index, [GetScan] returns a scan only if the file
    holds the scan header: on the truncated sample file it raises the error
    of the short read. *)
Example GetScan_truncated_header :
  DatFile_init truncated_file = Ok truncated_dat
  ∧ 0 < NumScans truncated_dat
  ∧ GetScan (Open truncated_dat) 0 = Raise struct_error
  ∧ GetScan (Open truncated_dat) (-1) = Raise struct_error.
Proof.
  repeat split; vm_compute; reflexivity.
Qed.

(** C7.  Constructing a [DatFile] reads the 85 little-endian 32-bit fields
    at byte 0x10, takes the timestamp from field 40, the index length N from
    field 39 and the index offset O from field 33, then reads at byte O + 4
    the N little-endian 32-bit offsets of the scan headers, in order;
    [NumScans()] is N. *)
Theorem C7_file_header data N O :
  0x10 + 85 * 4 <= Z.of_nat (length data) →
  field data 0x10 HDR_INDEX_LEN = Some N →
  field data 0x10 HDR_INDEX_OFFSET = Some O →
  O + 4 + 4 * N <= Z.of_nat (length data) →
  ∃ dat ts,
    DatFile_init data = Ok dat
    ∧ field data 0x10 HDR_TIMESTAMP = Some ts
    ∧ timestamp dat = ts ∧ indexLen dat = N ∧ indexOffset dat = O
    ∧ fd dat = None ∧ DatFile_content dat = data
    ∧ Z.of_nat (length (DatFile_vals dat)) = 85
    ∧ (∀ k, 0 <= k < 85 → DatFile_vals dat !! Z.to_nat k = field data 0x10 k)
    ∧ NumScans dat = N
    ∧ (∀ i, 0 <= i < N → offsets dat !! Z.to_nat i = field data (O + 4) i).
Proof.
  intros Hlen HN HO Hindex.
  destruct (DatFile_init_blocks data N O)
    as (vals & offs & ts & Hvlen & Hv & Holen & Ho & Hts & Hinit); [done..|].
  exists (mkDatFile data None ts N O vals offs), ts.
  split; [exact Hinit|]. split.
  - unfold HDR_TIMESTAMP. rewrite <- Hv by lia. exact Hts.
  - repeat split; try done.
Qed.

Lemma C7_file_header_witness :
  ∃ dat, DatFile_init (sample_file sample_stream) = Ok dat
         ∧ timestamp dat = 1400000000 ∧ NumScans dat = 1
         ∧ offsets dat !! 0%nat = Some 364.
Proof.
  destruct (C7_file_header (sample_file sample_stream) 1 356)
    as (dat & ts & Hinit & Hts & Htime & _ & _ & _ & _ & _ & _ & Hnum & Hoffs).
  - vm_compute. discriminate.
  - vm_compute. reflexivity.
  - vm_compute. reflexivity.
  - vm_compute. discriminate.
  - exists dat. split; [exact Hinit|]. split; [|split; [exact Hnum|]].
    + vm_compute in Hts. injection Hts as <-. exact Htime.
    + assert (H0 : 0 <= 0 < 1) by lia.
      exact (eq_trans (Hoffs 0 H0) eq_refl).
Defined.

(** C8.  A word of tag 0x4 (VOLT) with a payload [p] that is not zero, in a
    mass of a scan whose EDAC is [e]: the decoder goes on with
    [acceleratingVoltage] equal to [e * 1000.0 / p / 2^18], whatever the
    attribute held before; a complete mass keeps the voltage of its last
    VOLT word, and no VOLT word makes decoding fail. *)
Theorem C8_accelerating_voltage e m tell b0 b1 b2 b3 rest data pos ws w_eom :
  let w := unpack_I b0 b1 b2 b3 in
  let voltage p := (float_of_Z e * 1000 / float_of_Z p / float_of_Z (2 ^ 18))%float in
  (tag w = KEY_VOLT → payload w ≠ 0 →
   Mass_while e m tell (b0 :: b1 :: b2 :: b3 :: rest) =
     Mass_while e (set_acceleratingVoltage m (voltage (payload w))) (tell + 4) rest
   ∧ acceleratingVoltage (set_acceleratingVoltage m (voltage (payload w))) =
       Some (voltage (payload w)))
  ∧ (0 <= pos → body_ok ws = true → tag w_eom = KEY_EOM →
     words_at data pos (ws ++ [w_eom]) →
     ∃ mass,
       Mass_init e (Some data) pos = Ok mass
       ∧ acceleratingVoltage mass = voltage <$> last_payload KEY_VOLT ws).
Proof.
  intros w voltage. split.
  - intros Htag Hp. split; [|done].
    cbn [Mass_while]. fold w.
    by rewrite Mass_body_VOLT by (apply unpack_I_range || done).
  - intros Hpos Hok Htag Hat.
    destruct (Mass_init_record e data pos ws w_eom) as (m1 & Hdec & Hinit);
      [done..|].
    eexists. split; [done|].
    destruct Hdec as (_ & _ & _ & _ & Hv & _). cbn. rewrite Hv.
    unfold KEY_VOLT. by destruct (last_payload 4 ws).
Qed.

Lemma C8_accelerating_voltage_witness :
  ∃ mass,
    Mass_init 262144 (Some (sample_file [0x40000001; 0x400003E8; 0x80000064])) 552
      = Ok mass
    ∧ acceleratingVoltage mass = Some 1%float.
Proof.
  pose proof (C8_accelerating_voltage 262144 (new_Mass 552) 552
                Byte.xe8 Byte.x03 Byte.x00 Byte.x40 (pack_I 0x80000064)
                (sample_file [0x40000001; 0x400003E8; 0x80000064]) 552
                [0x40000001; 0x400003E8] 0x80000064) as [Hstep Hrecord].
  destruct Hstep as [_ Hset]; [reflexivity|vm_compute; discriminate|].
  destruct Hrecord as (mass & Hinit & Hvolt).
  - lia.
  - vm_compute. reflexivity.
  - reflexivity.
  - vm_compute. tauto.
  - exists mass. split; [exact Hinit|].
    rewrite Hvolt. vm_compute. reflexivity.
Defined.

(** C9.  A mass whose words reach a word of tag 0x4 (VOLT) and payload 0:
    decoding fails with the division by zero of the voltage formula, which
    nothing guards, and that error is none of [UnknownKey],
    [UnknownDataType], the set-once exception, [NotOpen] and [EOS]. *)
Theorem C9_volt_zero_division e data pos ws w :
  0 <= pos → body_ok ws = true →
  tag w = KEY_VOLT → payload w = 0 →
  words_at data pos (ws ++ [w]) →
  Mass_init e (Some data) pos = Raise ZeroDivisionError
  ∧ ∀ code, ZeroDivisionError ∉
      [UnknownKey code; UnknownDataType code; Exception code; NotOpen; EOS].
Proof.
  intros Hpos Hok Htag Hp Hat. split.
  - destruct (Mass_init_reach e data pos ws w) as (m1 & _ & Hrun); [done..|].
    rewrite Hrun. cbn zeta.
    apply words_at_app in Hat as [_ [Hw _]].
    by rewrite Mass_body_VOLT_zero by (by eapply word_at_range || done).
  - intros code Hin. repeat (apply elem_of_cons in Hin as [Hin|Hin]; [done|]).
    by apply elem_of_nil in Hin.
Qed.

Lemma C9_volt_zero_division_witness :
  Mass_init 1000 (Some (sample_file [0x1000000A; 0x40000000; 0x80000064])) 552
    = Raise ZeroDivisionError.
Proof.
  apply (C9_volt_zero_division 1000
           (sample_file [0x1000000A; 0x40000000; 0x80000064]) 552
           [0x1000000A] 0x40000000).
  - lia.
  - vm_compute. reflexivity.
  - reflexivity.
  - reflexivity.
  - vm_compute. tauto.
Defined.

(** C10.  Access to the scans is under the precondition of an open handle
    ([NotOpen] for every index otherwise); of the index [GetScan] checks
    only that it is below [NumScans].  On an open [DatFile]
    with N > 0 scans and for -N <= i <= -1, the index passes the check and
    wraps around: [GetScan(i)] decodes the scan at [offsets[N + i]], as
    [GetScan(N + i)] does, and returns it when that 188-byte header lies
    within the file. *)
Theorem C10_GetScan_negative_index dat data i :
  (fd dat = None → GetScan dat i = Raise NotOpen)
  ∧ (fd dat = Some data → 0 < NumScans dat → - NumScans dat <= i <= -1 →
  ∃ off,
    offsets dat !! Z.to_nat (NumScans dat + i) = Some off
    ∧ GetScan dat i = Scan_init dat off
    ∧ GetScan dat i = GetScan dat (NumScans dat + i)
    ∧ (0 <= off → off + 188 <= Z.of_nat (length data) →
       ∃ scan,
         GetScan dat i = Ok scan
         ∧ Some (number scan) = field data off 9
         ∧ Scan_offset scan = off + 188)).
Proof.
  split; [apply GetScan_closed|].
  intros Hfd HN Hi.
  destruct (GetScan_wraps dat data i) as (off & Hoff & Hget); [done|lia|].
  destruct (GetScan_in_range dat data (NumScans dat + i))
    as (off' & Hoff' & Hget'); [done|lia|].
  assert (off' = off) as -> by congruence.
  exists off. repeat split; [done|done|congruence|].
  intros Hoff0 Hlen.
  destruct (Scan_init_ok dat data off)
    as (scan & Hscan & _ & Hso & _ & _ & _ & Hnum & _); [done..|].
  exists scan. by rewrite Hget.
Qed.

Lemma C10_GetScan_negative_index_witness :
  ∃ scan, GetScan (Open sample_dat) (-1) = Ok scan ∧ number scan = 7.
Proof.
  destruct (C10_GetScan_negative_index (Open sample_dat)
              (sample_file sample_stream) (-1)) as [_ Hopen].
  destruct Hopen as (off & Hoff & _ & _ & Hscan).
  - reflexivity.
  - vm_compute. reflexivity.
  - vm_compute. split; discriminate.
  - vm_compute in Hoff. injection Hoff as <-.
    destruct Hscan as (scan & Hget & Hnum & _);
      [lia|vm_compute; discriminate|].
    exists scan. split; [exact Hget|].
    assert (E : field (sample_file sample_stream) 364 9 = Some 7)
      by (vm_compute; reflexivity).
    rewrite E in Hnum. injection Hnum as Hnum. exact Hnum.
Defined.

(** The precondition at work: on the sample file before it is opened,
    [GetScan(-1)] raises [NotOpen]. *)
Example GetScan_before_Open_negative_index :
  DatFile_init (sample_file sample_stream) = Ok sample_dat
  ∧ 0 < NumScans sample_dat
  ∧ - NumScans sample_dat <= -1 <= -1
  ∧ GetScan sample_dat (-1) = Raise NotOpen.
Proof.
  repeat split; vm_compute; (reflexivity || discriminate).
Qed.

(** * Further properties of the decoder *)

(** ** What one turn of the loop can do *)

Section BodyInversion.
Variables (e : Z) (m : Mass) (tell : Z) (w : Z).
Hypothesis Hw : 0 <= w < 2 ^ 32.

(** Every word has one of the eight tags of the format or an unknown one. *)
Lemma tag_cases :
  tag w = 0xF ∨ tag w = 0x8 ∨ tag w = 0xC ∨ tag w = 0xB ∨ tag w = 0x4
  ∨ tag w = 0x3 ∨ tag w = 0x2 ∨ tag w = 0x1
  ∨ tag w ∉ [0xF; 0x8; 0xC; 0xB; 0x4; 0x3; 0x2; 0x1].
Proof.
  destruct (decide (tag w ∈ [0xF; 0x8; 0xC; 0xB; 0x4; 0x3; 0x2; 0x1]))
    as [Hin|Hout]; [|tauto].
  repeat (apply elem_of_cons in Hin as [Hin|Hin]; [tauto|]).
  by apply elem_of_nil in Hin.
Qed.

(** The loop is left through [break] by the end-of-mass word only. *)
Lemma Mass_body_Break_inv m' :
  Mass_body e m tell w = Break m' →
  tag w = 0x8 ∧ duration m = None
  ∧ m' = set_size (set_duration m (payload w)) (tell - Mass_offset m).
Proof.
  destruct tag_cases as [H|[H|[H|[H|[H|[H|[H|[H|H]]]]]]]].
  - by rewrite Mass_body_EOS.
  - rewrite Mass_body_EOM by done. unfold _SetAttr. cbn [getattr setattr].
    destruct (duration m); [done|]. by intros [= <-].
  - by rewrite Mass_body_BSCAN.
  - by rewrite Mass_body_B.
  - destruct (decide (payload w = 0)).
    + by rewrite Mass_body_VOLT_zero.
    + by rewrite Mass_body_VOLT.
  - rewrite Mass_body_TIME by done. unfold _SetAttr. by case_match.
  - by rewrite Mass_body_MASS.
  - rewrite Mass_body_DATA by done. by case_match.
  - by rewrite Mass_body_unknown.
Qed.

(** The exceptions a turn of the loop raises. *)
Lemma Mass_body_Throw_inv x :
  Mass_body e m tell w = Throw x →
  x = EOS ∨ x = UnknownKey (str (tag w))
  ∨ x = UnknownDataType (str (bits 20 23 w))
  ∨ x = Exception "duration is already set"
  ∨ x = Exception "channelTime is already set"
  ∨ x = ZeroDivisionError.
Proof.
  destruct tag_cases as [H|[H|[H|[H|[H|[H|[H|[H|H]]]]]]]].
  - rewrite Mass_body_EOS by done. intros [= <-]. tauto.
  - rewrite Mass_body_EOM by done. unfold _SetAttr. cbn [getattr attr_name].
    destruct (duration m); [|done]. intros [= <-]. tauto.
  - by rewrite Mass_body_BSCAN.
  - by rewrite Mass_body_B.
  - destruct (decide (payload w = 0)).
    + rewrite Mass_body_VOLT_zero by done. intros [= <-]. tauto.
    + by rewrite Mass_body_VOLT.
  - rewrite Mass_body_TIME by done. unfold _SetAttr. cbn [getattr attr_name].
    destruct (channelTime m); [|done]. intros [= <-]. tauto.
  - by rewrite Mass_body_MASS.
  - rewrite Mass_body_DATA by done.
    destruct (data_category (bits 20 23 w)); [done|]. intros [= <-]. tauto.
  - rewrite Mass_body_unknown by done. intros [= <-]. tauto.
Qed.

(** A turn that goes on keeps the offset, the duration and the size, and
    leaves the measurements alone or appends the value of a DATA word. *)
Lemma Mass_body_Next_inv m' :
  Mass_body e m tell w = Next m' →
  Mass_offset m' = Mass_offset m ∧ duration m' = duration m
  ∧ Mass_size m' = Mass_size m
  ∧ (measurements m' = measurements m
     ∨ ∃ category,
         tag w = 0x1 ∧ data_category (bits 20 23 w) = Some category
         ∧ m' = measurements_append m category (word_value w)).
Proof.
  destruct tag_cases as [H|[H|[H|[H|[H|[H|[H|[H|H]]]]]]]].
  - by rewrite Mass_body_EOS.
  - rewrite Mass_body_EOM by done. unfold _SetAttr. by case_match.
  - rewrite Mass_body_BSCAN by done. intros [= <-]. auto.
  - rewrite Mass_body_B by done. intros [= <-]. auto.
  - destruct (decide (payload w = 0)) as [Hz|Hnz].
    + by rewrite Mass_body_VOLT_zero.
    + rewrite Mass_body_VOLT by done. intros [= <-]. auto.
  - rewrite Mass_body_TIME by done. unfold _SetAttr. cbn [getattr setattr].
    destruct (channelTime m); [done|]. intros [= <-]. auto.
  - rewrite Mass_body_MASS by done. intros [= <-]. auto.
  - rewrite Mass_body_DATA by done.
    destruct (data_category (bits 20 23 w)) as [category|] eqn:Hcat; [|done].
    intros [= <-]. repeat split; try done. right. by exists category.
  - by rewrite Mass_body_unknown.
Qed.
End BodyInversion.

(** ** Invariants of the loop of [Mass.__init__] *)

(** What holds of every turn of the loop holds of its outcome. *)
Lemma Mass_while_inv e (P : Mass → Prop) (Q : result Mass → Prop) :
  (∀ m tell w m', 0 <= w < 2 ^ 32 → P m → Mass_body e m tell w = Next m' → P m') →
  (∀ m tell w m', 0 <= w < 2 ^ 32 → P m → Mass_body e m tell w = Break m' → Q (Ok m')) →
  (∀ m tell w x, 0 <= w < 2 ^ 32 → P m → Mass_body e m tell w = Throw x → Q (Raise x)) →
  Q (Raise struct_error) →
  ∀ n rest m tell, (length rest <= n)%nat → P m → Q (Mass_while e m tell rest).
Proof.
  intros HNext HBreak HThrow Hshort.
  induction n as [|n IH]; intros rest m tell Hlen HP.
  - destruct rest; [done|cbn in Hlen; lia].
  - destruct rest as [|b0 [|b1 [|b2 [|b3 rest]]]]; try done.
    cbn [Mass_while].
    pose proof (unpack_I_range b0 b1 b2 b3) as Hw.
    destruct (Mass_body e m (tell + 4) (unpack_I b0 b1 b2 b3)) as [m1|m1|x] eqn:Hb.
    + apply IH; [cbn in Hlen; lia|]. by eapply HNext.
    + by eapply HBreak.
    + by eapply HThrow.
Qed.

(** A completed mass ends with an end-of-mass word: the [k]-th word read,
    counting from zero, whose payload is the duration. *)
Lemma Mass_while_end e n :
  ∀ rest m tell m',
    (length rest <= n)%nat → Mass_while e m tell rest = Ok m' →
    ∃ (k : nat) w,
      (4 * k + 4 <= length rest)%nat
      ∧ head_word (drop (4 * k) rest) = Some w
      ∧ tag w = 0x8
      ∧ duration m' = Some (payload w)
      ∧ Mass_size m' = Some (tell + 4 * Z.of_nat k + 4 - Mass_offset m)
      ∧ Mass_offset m' = Mass_offset m.
Proof.
  induction n as [|n IH]; intros rest m tell m' Hlen.
  - destruct rest; [done|cbn in Hlen; lia].
  - destruct rest as [|b0 [|b1 [|b2 [|b3 rest]]]]; try done.
    cbn [Mass_while].
    pose proof (unpack_I_range b0 b1 b2 b3) as Hw.
    destruct (Mass_body e m (tell + 4) (unpack_I b0 b1 b2 b3)) as [m1|m1|x] eqn:Hb;
      [|intros [= <-]|done].
    + intros Hrun. apply IH in Hrun as (k & w & Hk & Hword & Htag & Hd & Hs & Ho);
        [|cbn in Hlen; lia].
      apply (Mass_body_Next_inv _ _ _ _ Hw) in Hb as (Ho1 & _).
      exists (S k), w. repeat split; try done.
      * cbn [length]. lia.
      * by replace (4 * S k)%nat with (4 + 4 * k)%nat by lia.
      * rewrite Hs, Ho1. f_equal. lia.
      * congruence.
    + apply (Mass_body_Break_inv _ _ _ _ Hw) in Hb as (Htag & Hd & ->).
      exists 0%nat, (unpack_I b0 b1 b2 b3). repeat split; try done.
      * cbn [length]. lia.
      * cbn. f_equal. lia.
Qed.

(** The range of the values of the DATA words. *)
Lemma word_value_range w :
  - (65535 * 2 ^ 15) <= word_value w <= 65535 * 2 ^ 15.
Proof.
  unfold word_value.
  pose proof (bits_range 0 15 w ltac:(lia)) as Hm.
  pose proof (bits_range 16 19 w ltac:(lia)) as He.
  change (2 ^ (15 - 0 + 1)) with 65536 in Hm.
  change (2 ^ (19 - 16 + 1)) with 16 in He.
  assert (Hpow : 0 < 2 ^ bits 16 19 w <= 2 ^ 15).
  { split; [apply Z.pow_pos_nonneg; lia|apply Z.pow_le_mono_r; lia]. }
  assert (0 <= bits 0 15 w * 2 ^ bits 16 19 w <= 65535 * 2 ^ 15) by nia.
  destruct (bits 24 27 w =? 0); lia.
Qed.

Lemma data_category_elem dataType category :
  data_category dataType = Some category →
  category ∈ ["analog"; "pulse"; "faraday"].
Proof.
  unfold data_category. repeat case_match; intros [= <-]; set_solver.
Qed.

Lemma measurements_inv_append m category w :
  category ∈ ["analog"; "pulse"; "faraday"] →
  measurements_inv (measurements m) →
  measurements_inv (measurements (measurements_append m category (word_value w))).
Proof.
  intros Hcat Hinv c l. cbn. rewrite lookup_insert.
  destruct (decide (category = c)) as [<-|_]; [|apply Hinv].
  intros [= <-]. split; [done|]. split; [by destruct (default _ _)|].
  apply Forall_app. split; [|by repeat constructor; apply word_value_range].
  destruct (measurements m !! category) as [l|] eqn:Hl; [|by constructor].
  by apply Hinv in Hl as (_ & _ & Hl).
Qed.

Lemma Mass_while_measurements e n rest m tell m' :
  (length rest <= n)%nat → measurements_inv (measurements m) →
  Mass_while e m tell rest = Ok m' → measurements_inv (measurements m').
Proof.
  intros Hlen Hinv.
  apply (Mass_while_inv e (λ m, measurements_inv (measurements m))
           (λ r, r = Ok m' → measurements_inv (measurements m'))) with (n := n);
    try done.
  - intros m0 tell0 w m1 Hw HP Hb.
    apply (Mass_body_Next_inv _ _ _ _ Hw) in Hb
      as (_ & _ & _ & [->|(c & _ & Hc & ->)]); [done|].
    apply measurements_inv_append; [by eapply data_category_elem|done].
  - intros m0 tell0 w m1 Hw HP Hb [= ->].
    by apply (Mass_body_Break_inv _ _ _ _ Hw) in Hb as (_ & _ & ->).
Qed.

(** The loop never finds the duration set: its guard never fires. *)
Lemma Mass_while_raises e n rest m tell x :
  (length rest <= n)%nat → duration m = None →
  Mass_while e m tell rest = Raise x →
  x = struct_error ∨ x = EOS ∨ (∃ code, x = UnknownKey code)
  ∨ (∃ code, x = UnknownDataType code)
  ∨ x = Exception "channelTime is already set" ∨ x = ZeroDivisionError.
Proof.
  intros Hlen Hd.
  apply (Mass_while_inv e (λ m, duration m = None)
           (λ r, r = Raise x → _)) with (n := n); try done.
  - intros m0 tell0 w m1 Hw HP Hb.
    by apply (Mass_body_Next_inv _ _ _ _ Hw) in Hb as (_ & -> & _).
  - intros m0 tell0 w y Hw HP Hb [= ->].
    pose proof Hb as Hb'.
    apply (Mass_body_Throw_inv _ _ _ _ Hw) in Hb as [-> |[-> |[-> |[-> |[-> | -> ]]]]];
      eauto 10.
    exfalso. destruct (tag_cases w Hw) as [H|[H|[H|[H|[H|[H|[H|[H|H]]]]]]]].
    + by rewrite Mass_body_EOS in Hb'.
    + rewrite Mass_body_EOM in Hb' by done. unfold _SetAttr in Hb'.
      cbn [getattr] in Hb'. by rewrite HP in Hb'.
    + by rewrite Mass_body_BSCAN in Hb'.
    + by rewrite Mass_body_B in Hb'.
    + destruct (decide (payload w = 0)).
      * by rewrite Mass_body_VOLT_zero in Hb'.
      * by rewrite Mass_body_VOLT in Hb'.
    + rewrite Mass_body_TIME in Hb' by done. unfold _SetAttr in Hb'.
      cbn [getattr attr_name] in Hb'. destruct (channelTime m0); discriminate Hb'.
    + by rewrite Mass_body_MASS in Hb'.
    + rewrite Mass_body_DATA in Hb' by done.
      destruct (data_category (bits 20 23 w)); discriminate Hb'.
    + rewrite Mass_body_unknown in Hb' by done. discriminate Hb'.
  - intros [= <-]. by left.
Qed.

(** ** Masses decoded from arbitrary bytes *)

(** X1.  Whatever the bytes of the file, a mass that [Mass.__init__] returns
    was read on an open handle from a non-negative offset, and ends with an
    end-of-mass word that lies within the file: with [k] words before it,
    the duration is the payload of the word at [offset + 4k] and the size is
    [4 (k + 1)], so the mass never extends past the end of the file. *)
Theorem X1_completed_mass e fd offset m :
  Mass_init e fd offset = Ok m →
  ∃ data k w,
    fd = Some data ∧ 0 <= offset ∧ 0 <= k
    ∧ Mass_offset m = offset
    ∧ word_at data (offset + 4 * k) = Some w
    ∧ tag w = KEY_EOM
    ∧ duration m = Some (payload w)
    ∧ Mass_size m = Some (4 * (k + 1))
    ∧ offset + 4 * (k + 1) <= Z.of_nat (length data).
Proof.
  unfold Mass_init, seek. destruct fd as [data|]; [|done]. cbn [_CheckOpen mbind result_bind].
  destruct (Z.ltb_spec offset 0) as [|Hpos]; [done|]. cbn [mbind result_bind].
  intros Hrun.
  apply (Mass_while_end _ _ _ _ _ _ (Nat.le_refl _)) in Hrun
    as (k & w & Hk & Hword & Htag & Hd & Hs & Ho).
  rewrite length_drop in Hk. cbn [Mass_offset new_Mass] in Hs, Ho.
  exists data, (Z.of_nat k), w. repeat split; try done; try lia.
  - unfold word_at. rewrite drop_drop in Hword. rewrite <- Hword.
    f_equal. f_equal. lia.
  - rewrite Hs. f_equal. lia.
Qed.

Lemma X1_completed_mass_witness :
  ∃ k w, word_at (sample_file sample_stream) (552 + 4 * k) = Some w
         ∧ tag w = KEY_EOM ∧ duration sample_mass = Some (payload w).
Proof.
  destruct (X1_completed_mass 1000 (Some (sample_file sample_stream)) 552 sample_mass)
    as (data & k & w & Hfd & _ & _ & _ & Hw & Htag & Hd & _).
  - vm_compute. reflexivity.
  - injection Hfd as <-. exists k, w. split; [exact Hw|]. split; [exact Htag|exact Hd].
Defined.

(** X2.  Whatever the bytes of the file, the measurements of a mass that
    [Mass.__init__] returns have no other keys than 'analog', 'pulse' and
    'faraday', no key with an empty sequence, and only values between
    -65535 * 2^15 and 65535 * 2^15 (they fit a signed 32-bit integer). *)
Theorem X2_measurements_of_a_mass e fd offset m category values :
  Mass_init e fd offset = Ok m →
  measurements m !! category = Some values →
  category ∈ ["analog"; "pulse"; "faraday"]
  ∧ values ≠ []
  ∧ Forall (λ v, - (65535 * 2 ^ 15) <= v <= 65535 * 2 ^ 15 ∧ - 2 ^ 31 < v < 2 ^ 31)
           values.
Proof.
  unfold Mass_init, seek. destruct fd as [data|]; [|done]. cbn [_CheckOpen mbind result_bind].
  destruct (offset <? 0); [done|]. cbn [mbind result_bind].
  intros Hrun Hlookup.
  apply (Mass_while_measurements _ _ _ _ _ _ (Nat.le_refl _)) in Hrun; [|done].
  apply Hrun in Hlookup as (Hc & Hne & Hall). repeat split; try done.
  eapply Forall_impl; [exact Hall|]. cbn. intros v Hv. lia.
Qed.

Lemma X2_measurements_of_a_mass_witness :
  "analog" ∈ ["analog"; "pulse"; "faraday"] ∧ [10] ≠ ([] : list Z).
Proof.
  destruct (X2_measurements_of_a_mass 1000 (Some (sample_file sample_stream)) 552
              sample_mass "analog" [10]) as (Hc & Hne & _).
  - vm_compute. reflexivity.
  - vm_compute. reflexivity.
  - split; [exact Hc|exact Hne].
Defined.



(** ** Streams that end in an error *)

Lemma word_at_None data pos :
  0 <= pos → Z.of_nat (length data) < pos + 4 → word_at data pos = None.
Proof.
  intros Hpos Hlen. unfold word_at, head_word.
  destruct (drop (Z.to_nat pos) data) as [|b0 [|b1 [|b2 [|b3 r]]]] eqn:E; try done.
  apply (f_equal length) in E. rewrite length_drop in E. cbn in E. lia.
Qed.

(** The body of a mass that the file ends in: the next read is short. *)
Lemma Mass_init_truncated e data pos ws :
  0 <= pos → body_ok ws = true → words_at data pos ws →
  Z.of_nat (length data) < pos + 4 * Z.of_nat (length ws) + 4 →
  Mass_init e (Some data) pos = Raise struct_error.
Proof.
  intros Hpos Hok Hat Hlen.
  apply body_ok_split in Hok as [Hplain Htime].
  destruct (Mass_while_body e data ws (new_Mass pos) pos) as (m1 & _ & Hrun);
    [done..|].
  unfold Mass_init, seek. cbn [_CheckOpen mbind result_bind].
  destruct (Z.ltb_spec pos 0) as [?|_]; [lia|]. cbn [mbind result_bind].
  rewrite Hrun. apply Mass_while_short, word_at_None; lia.
Qed.

(** [__next__] passes on every exception of the decoder but [EOS]. *)
Lemma ScanIterator_next_raise scan data pos x :
  Scan_fd scan = Some data → x ≠ EOS →
  Mass_init (edac scan) (Some data) pos = Raise x →
  ScanIterator_next (mkScanIterator scan pos) = Raise x.
Proof.
  intros Hfd Hx Hinit. unfold ScanIterator_next, GetMass.
  cbn [ScanIterator_scan ScanIterator_offset]. rewrite Hfd, Hinit.
  by destruct x.
Qed.

(** Complete records, then a mass the decoder fails on: the loop over the
    masses ends with the exception. *)
Lemma masses_from_records_raise scan data x :
  Scan_fd scan = Some data → x ≠ StopIteration →
  ∀ rs pos fuel,
    0 <= pos → (length rs < fuel)%nat →
    forallb record_ok rs = true →
    words_at data pos (flat_map record_words rs) →
    ScanIterator_next
      (mkScanIterator scan (pos + 4 * Z.of_nat (length (flat_map record_words rs))))
      = Raise x →
    masses_from fuel (mkScanIterator scan pos) = Some (Raise x).
Proof.
  intros Hfd Hx.
  induction rs as [|r rs IH]; intros pos fuel Hpos Hfuel Hok Hat Hend.
  - destruct fuel as [|fuel]; [cbn in Hfuel; lia|].
    cbn [flat_map length] in Hend.
    replace (pos + 4 * Z.of_nat 0) with pos in Hend by lia.
    cbn [masses_from]. rewrite Hend. by destruct x.
  - destruct fuel as [|fuel]; [cbn in Hfuel; lia|].
    cbn [forallb] in Hok. apply andb_prop in Hok as [Hr Hok].
    cbn [flat_map] in Hat, Hend. apply words_at_app in Hat as [Hat Hrest].
    rewrite length_app in Hend.
    destruct (ScanIterator_next_record scan data pos r)
      as (m & Hnext & _); [done..|].
    assert (Hsize : pos + 4 * Z.of_nat (length (record_words r)) = pos + record_size r).
    { unfold record_words, record_size. rewrite length_app. cbn. lia. }
    rewrite Hsize in Hrest.
    cbn [masses_from]. rewrite Hnext.
    rewrite (IH (pos + record_size r) fuel); [done| |cbn in Hfuel; lia|done|done|].
    + unfold record_size. lia.
    + rewrite <- Hend. do 2 f_equal. lia.
Qed.

Lemma Scan_masses_records_raise scan data rs x :
  Scan_fd scan = Some data → 0 <= Scan_offset scan → x ≠ StopIteration →
  forallb record_ok rs = true →
  words_at data (Scan_offset scan) (flat_map record_words rs) →
  ScanIterator_next
    (mkScanIterator scan
       (Scan_offset scan + 4 * Z.of_nat (length (flat_map record_words rs))))
    = Raise x →
  Scan_masses scan = Some (Raise x).
Proof.
  intros Hfd Hpos Hx Hok Hat Hend.
  rewrite (Scan_masses_open scan data Hfd).
  apply (masses_from_records_raise scan data x Hfd Hx rs); try done.
  destruct rs as [|r rs]; [cbn; lia|].
  pose proof (length_flat_map_record_words (r :: rs)) as Hle.
  apply words_at_length in Hat; [lia|done|].
  cbn [flat_map]. unfold record_words at 1. by destruct (body r).
Qed.

(** X4.  A scan whose stream holds complete mass records and then a mass in
    which the decoder reaches a word of a tag outside the eight of the
    format: decoding that mass raises [UnknownKey] with the tag in decimal,
    and iterating the scan ends with that exception instead of the masses
    (in [main] the row of the scan is dropped). *)
Theorem X4_unknown_key scan data rs ws w :
  Scan_fd scan = Some data → 0 <= Scan_offset scan →
  forallb record_ok rs = true → body_ok ws = true →
  tag w ∉ [KEY_EOS; KEY_EOM; KEY_BSCAN; KEY_B; KEY_VOLT; KEY_TIME; KEY_MASS; KEY_DATA] →
  words_at data (Scan_offset scan) (flat_map record_words rs ++ ws ++ [w]) →
  let pos := Scan_offset scan + 4 * Z.of_nat (length (flat_map record_words rs)) in
  Mass_init (edac scan) (Some data) pos = Raise (UnknownKey (str (tag w)))
  ∧ Scan_masses scan = Some (Raise (UnknownKey (str (tag w)))).
Proof.
  intros Hfd Hpos Hrs Hws Htag Hat pos.
  apply words_at_app in Hat as [Hat Hlast]. fold pos in Hlast.
  assert (Hinit : Mass_init (edac scan) (Some data) pos
                  = Raise (UnknownKey (str (tag w)))).
  { destruct (Mass_init_reach (edac scan) data pos ws w) as (m1 & _ & Hrun);
      [unfold pos; lia|done..|].
    rewrite Hrun. cbn zeta.
    apply words_at_app in Hlast as [_ [Hw _]].
    by rewrite Mass_body_unknown by (by eapply word_at_range || done). }
  split; [done|].
  apply (Scan_masses_records_raise scan data rs); try done.
  by apply (ScanIterator_next_raise scan data).
Qed.

Lemma X4_unknown_key_witness :
  Scan_masses (sample_scan [0x1000000A; 0x80000064; 0x30000007; 0x50000000])
    = Some (Raise (UnknownKey "5")).
Proof.
  apply (X4_unknown_key
           (sample_scan [0x1000000A; 0x80000064; 0x30000007; 0x50000000])
           (sample_file [0x1000000A; 0x80000064; 0x30000007; 0x50000000])
           [mkRecord [0x1000000A] 0x80000064] [0x30000007] 0x50000000).
  - reflexivity.
  - vm_compute. discriminate.
  - vm_compute. reflexivity.
  - vm_compute. reflexivity.
  - apply (bool_decide_unpack _). vm_compute. exact I.
  - vm_compute. tauto.
Defined.

(** X5.  A scan whose stream holds complete mass records and then ends,
    with no end-of-scan word, in the middle of a mass or right after a
    record: the read at the end of the file is short, and iterating the
    scan ends with [struct.error], not with the end of the iteration. *)
Theorem X5_stream_without_EOS scan data rs ws :
  Scan_fd scan = Some data → 0 <= Scan_offset scan →
  forallb record_ok rs = true → body_ok ws = true →
  words_at data (Scan_offset scan) (flat_map record_words rs ++ ws) →
  Z.of_nat (length data) <
    Scan_offset scan + 4 * Z.of_nat (length (flat_map record_words rs ++ ws)) + 4 →
  Scan_masses scan = Some (Raise struct_error).
Proof.
  intros Hfd Hpos Hrs Hws Hat Hlen.
  apply words_at_app in Hat as [Hat Hlast]. rewrite length_app in Hlen.
  apply (Scan_masses_records_raise scan data rs); try done.
  apply (ScanIterator_next_raise scan data); [done..|].
  apply (Mass_init_truncated _ _ _ ws); [lia|done..|lia].
Qed.

Lemma X5_stream_without_EOS_witness :
  Scan_masses (sample_scan [0x1000000A; 0x80000064; 0x30000007])
    = Some (Raise struct_error).
Proof.
  apply (X5_stream_without_EOS
           (sample_scan [0x1000000A; 0x80000064; 0x30000007])
           (sample_file [0x1000000A; 0x80000064; 0x30000007])
           [mkRecord [0x1000000A] 0x80000064] [0x30000007]).
  - reflexivity.
  - vm_compute. discriminate.
  - vm_compute. reflexivity.
  - vm_compute. reflexivity.
  - vm_compute. tauto.
  - vm_compute. reflexivity.
Defined.

(** ** What a mass record decodes to *)

Lemma Mass_init_measurements_inv e fd offset m :
  Mass_init e fd offset = Ok m → measurements_inv (measurements m).
Proof.
  unfold Mass_init, seek. destruct fd as [data|]; [|done]. cbn [_CheckOpen mbind result_bind].
  destruct (offset <? 0); [done|]. cbn [mbind result_bind].
  intros Hrun.
  by apply (Mass_while_measurements _ _ _ _ _ _ (Nat.le_refl _)) in Hrun.
Qed.

(** The attributes of the mass of a complete record, the measurements key
    by key. *)
Lemma Mass_init_record_exact e data pos ws w :
  0 <= pos → words_at data pos (ws ++ [w]) → body_ok ws = true → tag w = 0x8 →
  ∃ m,
    Mass_init e (Some data) pos = Ok m
    ∧ duration m = Some (payload w)
    ∧ channelTime m = last_payload 0x3 ws
    ∧ acceleratingVoltage m = volt_formula e <$> last_payload 0x4 ws
    ∧ magnetMass m = (λ p, float_of_Z p * 1 / 262144)%float <$> last_payload 0x2 ws
    ∧ ∀ c, measurements m !! c =
           if decide (values_of c ws = []) then None else Some (values_of c ws).
Proof.
  intros Hpos Hat Hok Htag.
  destruct (Mass_init_record_attributes e data pos ws w)
    as (m & Hinit & Hd & Ht & Hv & Hm & Hc); [done..|].
  exists m. repeat split; try done.
  intros c. specialize (Hc c).
  pose proof (Mass_init_measurements_inv _ _ _ _ Hinit c) as Hinv.
  destruct (measurements m !! c) as [l|]; cbn in Hc; subst.
  - destruct (Hinv _ eq_refl) as (_ & Hne & _). by case_decide.
  - by case_decide.
Qed.

Lemma last_payload_signal k ws :
  k ≠ 0xC → k ≠ 0xB → last_payload k (signal ws) = last_payload k ws.
Proof.
  intros HC HB. induction ws as [|w ws IH]; [done|].
  cbn [signal List.filter last_payload]. fold (signal ws).
  destruct (Z.eqb_spec (tag w) 0xC) as [E|_]; cbn [orb negb].
  - rewrite IH. destruct (Z.eqb_spec (tag w) k); [congruence|].
    by destruct (last_payload k ws).
  - destruct (Z.eqb_spec (tag w) 0xB) as [E|_]; cbn [negb].
    + rewrite IH. destruct (Z.eqb_spec (tag w) k); [congruence|].
      by destruct (last_payload k ws).
    + cbn [last_payload]. by rewrite IH.
Qed.

Lemma values_of_signal c ws : values_of c (signal ws) = values_of c ws.
Proof.
  induction ws as [|w ws IH]; [done|].
  cbn [signal List.filter values_of]. fold (signal ws).
  destruct (Z.eqb_spec (tag w) 0xC) as [E|_]; cbn [orb negb].
  - rewrite IH, E. done.
  - destruct (Z.eqb_spec (tag w) 0xB) as [E|_]; cbn [negb].
    + rewrite IH, E. done.
    + cbn [values_of]. by rewrite IH.
Qed.

(** X6.  Decoding a complete mass record (recognised words, TIME at most
    once, then an end-of-mass word) gives back what the words encode: the
    duration and the channel time are the payloads of the EOM and TIME
    words, the magnet mass is the payload of the last MASS word divided by
    2^18, and each category holds the values of its DATA words in the order
    of the words; a category with no DATA word has no key. *)
Theorem X6_record_decoding e data pos ws w :
  0 <= pos → body_ok ws = true → tag w = KEY_EOM →
  words_at data pos (ws ++ [w]) →
  ∃ m,
    Mass_init e (Some data) pos = Ok m
    ∧ Mass_offset m = pos
    ∧ Mass_size m = Some (4 * Z.of_nat (length (ws ++ [w])))
    ∧ duration m = Some (payload w)
    ∧ channelTime m = last_payload KEY_TIME ws
    ∧ magnetMass m =
        (λ p, float_of_Z p * 1 / float_of_Z (2 ^ 18))%float <$> last_payload KEY_MASS ws
    ∧ (∀ c, measurements_get m c = values_of c ws)
    ∧ (∀ c, values_of c ws = [] → measurements m !! c = None).
Proof.
  intros Hpos Hok Htag Hat.
  destruct (Mass_init_record_exact e data pos ws w)
    as (m & Hinit & Hd & Ht & _ & Hm & Hc); [done..|].
  destruct (Mass_init_record e data pos ws w) as (m1 & Hdec & Hinit'); [done..|].
  rewrite Hinit in Hinit'. injection Hinit' as Hm1.
  exists m. repeat split; try done.
  - rewrite Hm1. cbn. by destruct Hdec as [-> _].
  - rewrite Hm1. cbn. f_equal. rewrite length_app. cbn. lia.
  - intros c. unfold measurements_get. rewrite Hc. by case_decide.
  - intros c Hnil. rewrite Hc. by case_decide.
Qed.

Lemma X6_record_decoding_witness :
  ∃ m,
    Mass_init 1000
      (Some (sample_file [0x20040000; 0x10100003; 0x1000000A; 0x30000007;
                          0x11100002; 0x80000064])) 552 = Ok m
    ∧ channelTime m = Some 7 ∧ magnetMass m = Some 1%float
    ∧ measurements_get m "pulse" = [3; -2] ∧ measurements_get m "analog" = [10]
    ∧ measurements m !! "faraday" = None.
Proof.
  destruct (X6_record_decoding 1000
              (sample_file [0x20040000; 0x10100003; 0x1000000A; 0x30000007;
                            0x11100002; 0x80000064]) 552
              [0x20040000; 0x10100003; 0x1000000A; 0x30000007; 0x11100002]
              0x80000064)
    as (m & Hinit & _ & _ & _ & Ht & Hm & Hc & Hnone).
  - lia.
  - vm_compute. reflexivity.
  - reflexivity.
  - vm_compute. tauto.
  - exists m. split; [exact Hinit|]. split; [exact Ht|]. split; [exact Hm|].
    split; [exact (Hc "pulse")|]. split; [exact (Hc "analog")|].
    apply Hnone. reflexivity.
Defined.

(** X7.  BSCAN and B words have no effect: two complete mass records whose
    bodies are the same once these words are removed, and whose EOM words
    have the same payload, decode to masses with the same duration, channel
    time, magnet mass, accelerating voltage and measurements, wherever the
    records lie. *)
Theorem X7_reserved_words_ignored e data1 pos1 ws1 w1 data2 pos2 ws2 w2 :
  0 <= pos1 → body_ok ws1 = true → tag w1 = KEY_EOM →
  words_at data1 pos1 (ws1 ++ [w1]) →
  0 <= pos2 → body_ok ws2 = true → tag w2 = KEY_EOM →
  words_at data2 pos2 (ws2 ++ [w2]) →
  signal ws1 = signal ws2 → payload w1 = payload w2 →
  ∃ m1 m2,
    Mass_init e (Some data1) pos1 = Ok m1
    ∧ Mass_init e (Some data2) pos2 = Ok m2
    ∧ duration m1 = duration m2
    ∧ channelTime m1 = channelTime m2
    ∧ magnetMass m1 = magnetMass m2
    ∧ acceleratingVoltage m1 = acceleratingVoltage m2
    ∧ measurements m1 = measurements m2.
Proof.
  intros Hpos1 Hok1 Htag1 Hat1 Hpos2 Hok2 Htag2 Hat2 Hsignal Hpayload.
  destruct (Mass_init_record_exact e data1 pos1 ws1 w1)
    as (m1 & Hinit1 & Hd1 & Ht1 & Hv1 & Hm1 & Hc1); [done..|].
  destruct (Mass_init_record_exact e data2 pos2 ws2 w2)
    as (m2 & Hinit2 & Hd2 & Ht2 & Hv2 & Hm2 & Hc2); [done..|].
  exists m1, m2. repeat split; try done.
  - congruence.
  - rewrite Ht1, Ht2, <- (last_payload_signal 3 ws1), <- (last_payload_signal 3 ws2)
      by done. by rewrite Hsignal.
  - rewrite Hm1, Hm2, <- (last_payload_signal 2 ws1), <- (last_payload_signal 2 ws2)
      by done. by rewrite Hsignal.
  - rewrite Hv1, Hv2, <- (last_payload_signal 4 ws1), <- (last_payload_signal 4 ws2)
      by done. by rewrite Hsignal.
  - apply map_eq. intros c.
    rewrite Hc1, Hc2, <- (values_of_signal c ws1), <- (values_of_signal c ws2).
    by rewrite Hsignal.
Qed.

Lemma X7_reserved_words_ignored_witness :
  ∃ m1 m2,
    Mass_init 1000 (Some (sample_file [0xC0000001; 0x1000000A; 0xB0000002; 0x80000064]))
      552 = Ok m1
    ∧ Mass_init 1000 (Some (sample_file [0x30000000; 0x1000000A; 0x80000064]))
        556 = Ok m2
    ∧ measurements m1 = measurements m2.
Proof.
  destruct (X7_reserved_words_ignored 1000
              (sample_file [0xC0000001; 0x1000000A; 0xB0000002; 0x80000064]) 552
              [0xC0000001; 0x1000000A; 0xB0000002] 0x80000064
              (sample_file [0x30000000; 0x1000000A; 0x80000064]) 556
              [0x1000000A] 0x80000064)
    as (m1 & m2 & H1 & H2 & _ & _ & _ & _ & Hm).
  - lia.
  - vm_compute. reflexivity.
  - reflexivity.
  - vm_compute. tauto.
  - lia.
  - vm_compute. reflexivity.
  - reflexivity.
  - vm_compute. tauto.
  - vm_compute. reflexivity.
  - reflexivity.
  - exists m1, m2. split; [exact H1|]. split; [exact H2|exact Hm].
Defined.

(** ** A mass depends on its own bytes only *)

Lemma Mass_while_local e n :
  ∀ rest rest' m tell m' s,
    (length rest <= n)%nat →
    Mass_while e m tell rest = Ok m' → Mass_size m' = Some s →
    take (Z.to_nat (Mass_offset m + s - tell)) rest' =
      take (Z.to_nat (Mass_offset m + s - tell)) rest →
    Mass_while e m tell rest' = Ok m'.
Proof.
  induction n as [|n IH]; intros rest rest' m tell m' s Hlen Hrun Hs Htake.
  - destruct rest; [done|cbn in Hlen; lia].
  - pose proof (Mass_while_size _ _ _ _ _ _ Hlen Hrun) as (s' & Hs' & Hbound).
    assert (s' = s) as -> by congruence.
    destruct rest as [|b0 [|b1 [|b2 [|b3 rest]]]]; try done.
    set (c := Z.to_nat (Mass_offset m + s - (tell + 4))).
    replace (Z.to_nat (Mass_offset m + s - tell)) with (4 + c)%nat in Htake
      by (unfold c; lia).
    destruct rest' as [|c0 [|c1 [|c2 [|c3 rest']]]]; try done.
    cbn [take Nat.add] in Htake. injection Htake as -> -> -> -> Htake.
    cbn [Mass_while] in Hrun |- *.
    pose proof (unpack_I_range b0 b1 b2 b3) as Hw.
    destruct (Mass_body e m (tell + 4) (unpack_I b0 b1 b2 b3)) as [m1|m1|x] eqn:Hb;
      [|done..].
    apply (Mass_body_Next_inv _ _ _ _ Hw) in Hb as (Ho & _).
    apply (IH rest rest' m1 (tell + 4) m' s); [cbn in Hlen; lia|done..|].
    by rewrite Ho.
Qed.

(** X8.  Decoding a mass reads the bytes from its offset to the end of its
    end-of-mass word and no other: a file with the same bytes at
    [offset .. offset + size) gives the same mass at that offset, whatever
    it holds before and after. *)
Theorem X8_mass_depends_on_its_bytes e data data' offset m size :
  Mass_init e (Some data) offset = Ok m →
  Mass_size m = Some size →
  take (Z.to_nat size) (drop (Z.to_nat offset) data') =
    take (Z.to_nat size) (drop (Z.to_nat offset) data) →
  Mass_init e (Some data') offset = Ok m.
Proof.
  unfold Mass_init, seek. cbn [_CheckOpen mbind result_bind].
  destruct (offset <? 0); [done|]. cbn [mbind result_bind].
  intros Hrun Hs Htake.
  apply (Mass_while_local e _ _ _ _ _ _ size (Nat.le_refl _) Hrun Hs).
  cbn [Mass_offset new_Mass].
  by replace (offset + size - offset) with size by lia.
Qed.

Lemma X8_mass_depends_on_its_bytes_witness :
  Mass_init 1000 (Some (sample_file [0x1000000A; 0x80000064; 0x50000000])) 552
    = Ok sample_mass.
Proof.
  apply (X8_mass_depends_on_its_bytes 1000 (sample_file sample_stream)
           (sample_file [0x1000000A; 0x80000064; 0x50000000]) 552 sample_mass 8).
  - vm_compute. reflexivity.
  - reflexivity.
  - vm_compute. reflexivity.
Defined.

(** ** The iteration over the masses of a scan, on arbitrary bytes *)

Lemma ScanIterator_next_Ok it mass it' :
  ScanIterator_next it = Ok (mass, it') →
  ∃ data size,
    Scan_fd (ScanIterator_scan it) = Some data
    ∧ Mass_init (edac (ScanIterator_scan it)) (Some data) (ScanIterator_offset it)
      = Ok mass
    ∧ Mass_size mass = Some size
    ∧ it' = mkScanIterator (ScanIterator_scan it) (ScanIterator_offset it + size).
Proof.
  unfold ScanIterator_next, GetMass.
  destruct (Scan_fd (ScanIterator_scan it)) as [data|]; [|done].
  cbn [_CheckOpen mbind result_bind].
  destruct (Mass_init _ _ _) as [m|x] eqn:Hinit; [|by destruct x].
  cbn [mbind result_bind].
  destruct (Mass_size m) as [size|] eqn:Hs; [|done].
  intros [= <- <-]. by exists data, size.
Qed.

Lemma masses_from_contiguous fuel :
  ∀ it ms,
    masses_from fuel it = Some (Ok ms) →
    contiguous (ScanIterator_offset it) ms
    ∧ Forall (λ m, ∃ data size,
                Scan_fd (ScanIterator_scan it) = Some data
                ∧ Mass_size m = Some size
                ∧ Mass_init (edac (ScanIterator_scan it)) (Some data) (Mass_offset m)
                  = Ok m
                ∧ Mass_offset m + size <= Z.of_nat (length data)) ms.
Proof.
  induction fuel as [|fuel IH]; intros it ms; [done|].
  cbn [masses_from].
  destruct (ScanIterator_next it) as [[mass it']|x] eqn:Hnext.
  - destruct (masses_from fuel it') as [[ms'|y]|] eqn:Hrest; try done.
    intros [= <-].
    pose proof (ScanIterator_next_inv _ _ _ Hnext)
      as (data' & s & Hfd' & _ & Hs & Hs4 & Hend & _).
    apply ScanIterator_next_Ok in Hnext as (data & size & Hfd & Hinit & Hsize & ->).
    assert (s = size) as -> by congruence.
    assert (data' = data) as -> by congruence.
    pose proof Hinit as X. unfold Mass_init, seek in X.
    cbn [_CheckOpen mbind result_bind] in X.
    destruct (ScanIterator_offset it <? 0); [done|]. cbn [mbind result_bind] in X.
    apply (Mass_while_end _ _ _ _ _ _ (Nat.le_refl _)) in X
      as (_ & _ & _ & _ & _ & _ & _ & Ho). cbn in Ho.
    apply IH in Hrest as [Hcont Hall]. cbn in Hcont, Hall.
    split.
    + cbn [contiguous]. split; [done|]. by exists size.
    + constructor; [|done]. exists data, size. rewrite Ho.
      repeat split; done.
  - destruct x; try done. by intros [= <-].
Qed.

(** X9.  Iterating the masses of a scan always comes to an end, on any
    bytes: within one call of [__next__] per byte of the file and one more
    it has ended or raised.  The masses it yields lie one after the other from the
    start of the mass stream: each is the decoding of the file at its own
    offset, at least four bytes long, within the file, and the next one
    starts where it ends. *)
Theorem X9_masses_of_a_scan scan :
  is_Some (Scan_masses scan)
  ∧ ∀ ms,
      Scan_masses scan = Some (Ok ms) →
      ∃ data,
        Scan_fd scan = Some data
        ∧ contiguous (Scan_offset scan) ms
        ∧ Forall (λ m, ∃ size,
                    Mass_size m = Some size
                    ∧ Mass_init (edac scan) (Some data) (Mass_offset m) = Ok m
                    ∧ Mass_offset m + size <= Z.of_nat (length data)) ms.
Proof.
  split; [apply Scan_masses_total|].
  intros ms. unfold Scan_masses, Scan_iter, ScanIterator_init.
  destruct (Scan_fd scan) as [data|] eqn:Hfd; [|done].
  cbn -[masses_from]. intros Hms.
  apply masses_from_contiguous in Hms as [Hcont Hall]. cbn in Hcont, Hall.
  exists data. repeat split; try done.
  eapply Forall_impl; [exact Hall|]. cbn.
  intros m (data' & size & Hfd' & Hs & Hinit & Hend).
  rewrite Hfd in Hfd'. injection Hfd' as <-. by exists size.
Qed.

Lemma X9_masses_of_a_scan_witness :
  contiguous 552 [sample_mass; set_size (set_duration (new_Mass 560) 7) 4].
Proof.
  destruct (proj2 (X9_masses_of_a_scan
                     (sample_scan [0x1000000A; 0x80000064; 0x80000007; 0xF0000000]))
              [sample_mass; set_size (set_duration (new_Mass 560) 7) 4])
    as (data & _ & Hcont & _).
  - vm_compute. reflexivity.
  - exact Hcont.
Defined.

Lemma Mass_init_raises e data offset y :
  Mass_init e (Some data) offset = Raise y → y = EOS ∨ iteration_error y.
Proof.
  unfold iteration_error, Mass_init, seek. cbn [_CheckOpen mbind result_bind].
  destruct (offset <? 0); cbn [mbind result_bind]; [intros [= <-]; tauto|].
  intros Hrun.
  apply (Mass_while_raises _ _ _ _ _ _ (Nat.le_refl _)) in Hrun; [|done].
  destruct Hrun as [-> |[-> |[[c ->]|[[c ->]|[-> | -> ]]]]]; eauto 10.
Qed.

Lemma iteration_error_not_control x :
  iteration_error x → x ∉ [EOS; StopIteration; AttributeError; NotOpen].
Proof.
  unfold iteration_error.
  intros [-> |[-> |[[c ->]|[[c ->]|[-> | -> ]]]]] Hin;
    repeat (apply elem_of_cons in Hin as [Hin|Hin]; [done|]);
    by apply elem_of_nil in Hin.
Qed.

Lemma ScanIterator_next_raises it data x :
  Scan_fd (ScanIterator_scan it) = Some data →
  ScanIterator_next it = Raise x → x = StopIteration ∨ iteration_error x.
Proof.
  intros Hfd. unfold ScanIterator_next, GetMass. rewrite Hfd.
  cbn [_CheckOpen mbind result_bind].
  destruct (Mass_init _ _ _) as [m|y] eqn:Hinit.
  - cbn [mbind result_bind].
    unfold Mass_init, seek in Hinit. cbn [_CheckOpen mbind result_bind] in Hinit.
    destruct (ScanIterator_offset it <? 0); [done|]. cbn [mbind result_bind] in Hinit.
    apply (Mass_while_size _ _ _ _ _ _ (Nat.le_refl _)) in Hinit as (s & -> & _).
    done.
  - apply Mass_init_raises in Hinit as [-> |Hy].
    + cbn [mbind result_bind]. intros [= <-]. tauto.
    + pose proof (iteration_error_not_control _ Hy) as Hne.
      destruct y; cbn [mbind result_bind]; intros [= <-]; tauto.
Qed.

Lemma masses_from_raises data fuel :
  ∀ it x,
    Scan_fd (ScanIterator_scan it) = Some data →
    masses_from fuel it = Some (Raise x) → iteration_error x.
Proof.
  induction fuel as [|fuel IH]; intros it x Hfd; [done|].
  cbn [masses_from].
  destruct (ScanIterator_next it) as [[mass it']|y] eqn:Hnext.
  - destruct (masses_from fuel it') as [[ms'|z]|] eqn:Hrest; try done.
    intros [= <-].
    apply ScanIterator_next_Ok in Hnext as (_ & size & _ & _ & _ & ->).
    exact (IH (mkScanIterator (ScanIterator_scan it) (ScanIterator_offset it + size))
              _ Hfd Hrest).
  - apply (ScanIterator_next_raises it data _ Hfd) in Hnext as [-> |Hy]; [done|].
    unfold iteration_error in Hy.
    destruct Hy as [-> |[-> |[[c ->]|[[c ->]|[-> | -> ]]]]];
      intros [= <-]; unfold iteration_error; eauto 10.
Qed.

(** X10.  On a scan whose handle is open for reading, the end of the scan
    never shows as an error: [GetMass] turns the [EOS] of the decoder into
    [None] and nothing else, [__next__] raises [StopIteration] exactly
    then, and the exceptions that leave the iteration are the error of a
    negative seek, [struct.error], [UnknownKey], [UnknownDataType], the
    set-once exception of [channelTime] and the division by zero; never
    [EOS], [StopIteration], [NotOpen], [IndexError] or [AttributeError]. *)
Theorem X10_end_of_scan_is_no_error scan data offset x :
  Scan_fd scan = Some data →
  (GetMass scan offset = Ok None ↔
   Mass_init (edac scan) (Some data) offset = Raise EOS)
  ∧ (ScanIterator_next (mkScanIterator scan offset) = Raise StopIteration ↔
     Mass_init (edac scan) (Some data) offset = Raise EOS)
  ∧ GetMass scan offset ≠ Raise EOS
  ∧ (Scan_masses scan = Some (Raise x) →
     iteration_error x
     ∧ (x ∉ [EOS; StopIteration; AttributeError; NotOpen])
     ∧ (∀ msg, x ≠ IndexError msg)).
Proof.
  intros Hfd.
  assert (GetMass scan offset = Ok None ↔
          Mass_init (edac scan) (Some data) offset = Raise EOS) as HG.
  { unfold GetMass. rewrite Hfd. cbn [_CheckOpen mbind result_bind].
    destruct (Mass_init _ _ _) as [m|y]; [done|]. by destruct y. }
  split; [done|]. split; [|split].
  - rewrite <- HG. unfold ScanIterator_next.
    cbn [ScanIterator_scan ScanIterator_offset]. split.
    + intros Hnext.
      destruct (GetMass scan offset) as [[m|]|y] eqn:HGet; [|done|].
      * cbn [mbind result_bind] in Hnext. by destruct (Mass_size m).
      * cbn [mbind result_bind] in Hnext. injection Hnext as ->.
        unfold GetMass in HGet. rewrite Hfd in HGet.
        cbn [_CheckOpen mbind result_bind] in HGet.
        destruct (Mass_init _ _ _) as [m|y] eqn:Hinit; [done|].
        apply Mass_init_raises in Hinit as [-> |Hy]; [done|].
        apply iteration_error_not_control in Hy.
        destruct y; try done. exfalso. apply Hy. rewrite !elem_of_cons. tauto.
    + by intros ->.
  - unfold GetMass. rewrite Hfd. cbn [_CheckOpen mbind result_bind].
    destruct (Mass_init _ _ _) as [m|y]; [done|]. by destruct y.
  - intros Hx.
    assert (Herr : iteration_error x).
    { rewrite (Scan_masses_open scan data Hfd) in Hx.
      exact (masses_from_raises data _ (mkScanIterator scan (Scan_offset scan))
               x Hfd Hx). }
    split; [done|]. split; [by apply iteration_error_not_control|].
    unfold iteration_error in Herr.
    by destruct Herr as [-> |[-> |[[c ->]|[[c ->]|[-> | -> ]]]]].
Qed.

Lemma X10_end_of_scan_is_no_error_witness :
  ZeroDivisionError ∉ [EOS; StopIteration; AttributeError; NotOpen].
Proof.
  destruct (X10_end_of_scan_is_no_error
              (sample_scan [0x1000000A; 0x80000064; 0x40000000; 0xF0000000])
              (sample_file [0x1000000A; 0x80000064; 0x40000000; 0xF0000000]) 552
              ZeroDivisionError eq_refl) as (_ & _ & _ & Hx).
  destruct Hx as (_ & Hnot & _).
  - vm_compute. reflexivity.
  - exact Hnot.
Defined.

(** ** Scan headers and the construction of a [DatFile], at the edges *)

Lemma Scan_init_short dat data off :
  fd dat = Some data → 0 <= off → Z.of_nat (length data) < off + 188 →
  Scan_init dat off = Raise struct_error.
Proof.
  intros Hfd Hoff Hlen. unfold Scan_init, seek. rewrite Hfd.
  destruct (Z.ltb_spec off 0) as [?|_]; [lia|]. cbn [mbind result_bind].
  change (47 * 4 / 4) with 47. change (47 * 4) with (4 * 47).
  by rewrite unpack_Is_short by lia.
Qed.

(** The exceptions of [Scan.__init__]. *)
Lemma Scan_init_raises dat off x :
  Scan_init dat off = Raise x →
  x = AttributeError ∨ x = OSError ∨ x = struct_error.
Proof.
  unfold Scan_init, seek.
  destruct (fd dat) as [data|]; [|intros [= <-]; tauto].
  destruct (off <? 0); [intros [= <-]; tauto|]. cbn [mbind result_bind].
  unfold unpack_Is.
  destruct (Z.eqb_spec (Z.of_nat (length (read (drop (Z.to_nat off) data) (47 * 4))))
              (4 * (47 * 4 / 4))) as [Hlen|_]; [|intros [= <-]; tauto].
  cbn [mbind result_bind].
  assert (Hv : length (le_words (read (drop (Z.to_nat off) data) (47 * 4))) = 47%nat).
  { apply le_words_length. change (4 * (47 * 4 / 4)) with 188 in Hlen. lia. }
  set (vals := le_words _) in *.
  destruct (tuple_get_Ok vals 9) as (x9 & _ & ->); [lia|].
  destruct (tuple_get_Ok vals 7) as (x7 & _ & ->); [lia|].
  destruct (tuple_get_Ok vals 12) as (x12 & _ & ->); [lia|].
  destruct (tuple_get_Ok vals 19) as (x19 & _ & ->); [lia|].
  destruct (tuple_get_Ok vals 35) as (x35 & _ & ->); [lia|].
  destruct (tuple_get_Ok vals 31) as (x31 & _ & ->); [lia|].
  done.
Qed.

(** X11.  [Scan.__init__] on an open file: when the 188 bytes at the offset
    lie within the file it returns the scan whose delta, number, ACF, time,
    EDAC and FCF are the fields 7, 9, 12, 19, 31 and 35 of the header, that
    keeps the handle of the file and whose mass stream starts right after
    the header; when the file ends before, it raises [struct.error]. *)
Theorem X11_scan_header dat data off :
  fd dat = Some data → 0 <= off →
  (off + 188 <= Z.of_nat (length data) →
   ∃ scan,
     Scan_init dat off = Ok scan
     ∧ Some (delta scan) = field data off 7
     ∧ Some (number scan) = field data off 9
     ∧ Some (acf scan) = field data off 12
     ∧ Some (time scan) = field data off 19
     ∧ Some (edac scan) = field data off 31
     ∧ Some (fcf scan) = field data off 35
     ∧ length (Scan_vals scan) = 47%nat
     ∧ Scan_fd scan = Some data
     ∧ Scan_offset scan = off + headerSize scan ∧ headerSize scan = 188)
  ∧ (Z.of_nat (length data) < off + 188 → Scan_init dat off = Raise struct_error).
Proof.
  intros Hfd Hoff. split.
  - intros Hlen.
    destruct (Scan_init_ok dat data off)
      as (scan & Hinit & Hsfd & Hso & Hh & Hvl & _ & H9 & H7 & H12 & H19 & H35 & H31);
      [done..|].
    exists scan. repeat split; try done; [lia|]. by rewrite Hh.
  - by apply Scan_init_short.
Qed.

Lemma X11_scan_header_witness :
  (∃ scan, Scan_init (Open sample_dat) 364 = Ok scan ∧ Scan_offset scan = 552)
  ∧ Scan_init (Open truncated_dat) 364 = Raise struct_error.
Proof.
  split.
  - destruct (proj1 (X11_scan_header (Open sample_dat) (sample_file sample_stream)
                       364 eq_refl ltac:(lia)))
      as (scan & Hinit & _ & _ & _ & _ & _ & _ & _ & _ & Hso & Hh).
    + vm_compute. discriminate.
    + exists scan. split; [exact Hinit|]. rewrite Hso, Hh. reflexivity.
  - apply (proj2 (X11_scan_header (Open truncated_dat) truncated_file
                    364 eq_refl ltac:(lia))).
    vm_compute. reflexivity.
Defined.

(** The header block of a file that holds it: what is left of
    [DatFile.__init__] is the read of the index table. *)
Lemma DatFile_init_header data N O :
  0x10 + 85 * 4 <= Z.of_nat (length data) →
  field data 0x10 39 = Some N →
  field data 0x10 33 = Some O →
  ∃ vals ts,
    DatFile_init data =
      (offsets ← unpack_Is N (read (drop (Z.to_nat (O + 4)) data) (4 * N));
       Ok (mkDatFile data None ts N O vals offsets)).
Proof.
  intros Hlen HN HO. unfold field in *.
  destruct (unpack_Is_read data 0x10 85) as (vals & Hvals & Hvlen & Hv); [lia..|].
  destruct (tuple_get_Ok vals 40) as (ts & Hts & Hgts); [lia|].
  assert (HvN : vals !! Z.to_nat 39 = Some N) by (rewrite Hv by lia; exact HN).
  assert (HvO : vals !! Z.to_nat 33 = Some O) by (rewrite Hv by lia; exact HO).
  pose proof (word_at_range _ _ _ HO) as HOr.
  exists vals, ts.
  unfold DatFile_init, seek, HDR_TIMESTAMP, HDR_INDEX_LEN, HDR_INDEX_OFFSET.
  change (0x10 <? 0) with false. cbn [mbind result_bind].
  change (85 * 4) with (4 * 85). rewrite Hvals. cbn [mbind result_bind].
  rewrite Hgts, (tuple_get_nonneg vals 39 N), (tuple_get_nonneg vals 33 O)
    by (done || lia).
  cbn [mbind result_bind].
  destruct (Z.ltb_spec (O + 4) 0) as [?|_]; [lia|]. cbn [mbind result_bind].
  by rewrite (Z.mul_comm N 4).
Qed.

(** X12.  [DatFile.__init__] at the edges.  A file shorter than the 356
    bytes of preamble and header block raises [struct.error].  With the
    header block in the file: an index of length 0 gives a [DatFile] with no
    scans wherever the index offset points, even past the end of the file,
    and an index of positive length that does not fit in the file raises
    [struct.error], for a length of at most 2^20 entries (a read of at most
    4 MiB, a buffer the interpreter allocates; a length near 2^32 asks for
    a buffer it may fail to allocate, which is another error). *)
Theorem X12_construction_at_the_edges data :
  (Z.of_nat (length data) < 0x10 + 85 * 4 → DatFile_init data = Raise struct_error)
  ∧ ∀ N O,
      0x10 + 85 * 4 <= Z.of_nat (length data) →
      field data 0x10 HDR_INDEX_LEN = Some N →
      field data 0x10 HDR_INDEX_OFFSET = Some O →
      (N = 0 →
       ∃ dat, DatFile_init data = Ok dat ∧ offsets dat = [] ∧ NumScans dat = 0
              ∧ fd dat = None)
      ∧ (0 < N <= 2 ^ 20 → Z.of_nat (length data) < O + 4 + 4 * N →
         DatFile_init data = Raise struct_error).
Proof.
  split; [apply DatFile_init_short|].
  intros N O Hlen HN HO.
  destruct (DatFile_init_header data N O) as (vals & ts & Hinit); [done..|].
  pose proof (word_at_range _ _ _ HO) as HOr.
  split.
  - intros ->. eexists. rewrite Hinit. unfold unpack_Is, read. by cbn.
  - intros HNpos Hshort. rewrite Hinit. by rewrite unpack_Is_short by lia.
Qed.

Lemma X12_construction_at_the_edges_witness :
  DatFile_init header_only_file = Raise struct_error
  ∧ DatFile_init (take 355 header_only_file) = Raise struct_error.
Proof.
  split.
  - apply (proj2 (X12_construction_at_the_edges header_only_file) 1 356).
    + vm_compute. discriminate.
    + vm_compute. reflexivity.
    + vm_compute. reflexivity.
    + lia.
    + vm_compute. reflexivity.
  - apply (proj1 (X12_construction_at_the_edges (take 355 header_only_file))).
    vm_compute. reflexivity.
Defined.

(** ** Opening, closing and indexing a [DatFile] *)

(** X13.  [Open] and [Close]: closing a file that was opened gives back the
    closed [DatFile]; closing a file that is not open raises
    [AttributeError] (so does a second [Close]); opening twice is opening
    once; and after [Close] every [GetScan] raises [NotOpen]. *)
Theorem X13_open_and_close dat i :
  (fd dat = None → Close (Open dat) = Ok dat)
  ∧ (fd dat = None → Close dat = Raise AttributeError)
  ∧ Open (Open dat) = Open dat
  ∧ NumScans (Open dat) = NumScans dat
  ∧ ∀ dat', Close dat = Ok dat' →
            Close dat' = Raise AttributeError
            ∧ GetScan dat' i = Raise NotOpen
            ∧ Open dat' = Open dat.
Proof.
  destruct dat as [content h ts N O vals offs]. cbn.
  split; [by intros ->|]. split; [by intros ->|].
  split; [done|]. split; [done|].
  intros dat' Hclose. unfold Close in Hclose. cbn in Hclose.
  destruct h; [|done]. by injection Hclose as <-.
Qed.

Lemma X13_open_and_close_witness :
  Close (Open sample_dat) = Ok sample_dat
  ∧ Close sample_dat = Raise AttributeError.
Proof.
  destruct (X13_open_and_close sample_dat 0) as (H1 & H2 & _).
  split; [apply H1|apply H2]; reflexivity.
Defined.




(** ** Iterating the scans of a file *)

Lemma mapM_result_Ok {A B} (f : A → result B) l k :
  mapM f l = Ok k → Forall2 (λ x y, f x = Ok y) l k.
Proof.
  revert k. induction l as [|x l IH]; intros k; cbn.
  - intros [= <-]. constructor.
  - destruct (f x) as [y|] eqn:Hf; [|done]. cbn.
    destruct (mapM f l) as [k'|]; [|done]. cbn.
    intros [= <-]. constructor; [done|]. by apply IH.
Qed.

(** The loop over the scans from index [i] on: the scan headers at the
    offsets from the [i]-th on, decoded in order up to the first failure. *)
Lemma scans_from_mapM dat data :
  fd dat = Some data →
  ∀ (n : nat) i fuel,
    0 <= i → Z.of_nat n = NumScans dat - i → (n < fuel)%nat →
    scans_from fuel (mkDatFileIterator dat i) =
      Some (mapM (Scan_init dat) (drop (Z.to_nat i) (offsets dat))).
Proof.
  intros Hfd. induction n as [|n IH]; intros i fuel Hi Hn Hfuel.
  - destruct fuel as [|fuel]; [lia|]. cbn [scans_from].
    unfold DatFileIterator_next. cbn [DatFileIterator_dat DatFileIterator_i].
    destruct (Z.leb_spec (NumScans dat) i); [|lia].
    rewrite drop_ge by (unfold NumScans in *; lia). done.
  - destruct fuel as [|fuel]; [lia|]. cbn [scans_from].
    unfold DatFileIterator_next. cbn [DatFileIterator_dat DatFileIterator_i].
    destruct (Z.leb_spec (NumScans dat) i); [lia|].
    destruct (GetScan_in_range dat data i) as (off & Hoff & Hget); [done|lia|].
    rewrite Hget, (drop_S _ _ _ Hoff).
    specialize (IH (i + 1) fuel).
    replace (Z.to_nat (i + 1)) with (S (Z.to_nat i)) in IH by lia.
    cbn [mapM]. destruct (Scan_init dat off) as [scan|x] eqn:Hinit.
    + cbn [mbind result_bind]. rewrite IH by lia.
      by destruct (mapM (Scan_init dat) (drop (S (Z.to_nat i)) (offsets dat))).
    + cbn [mbind result_bind].
      by apply Scan_init_raises in Hinit as [-> |[-> | -> ]].
Qed.

(** X15.  Iterating an open [DatFile] decodes the scan headers at the
    offsets of the index, in the order of the index, and stops at the first
    header that fails to decode, with its exception.  When it ends without
    an exception it has yielded one scan per entry of the index, the
    [i]-th of them the scan that [GetScan(i)] returns. *)
Theorem X15_scans_of_a_file dat data :
  fd dat = Some data →
  DatFile_scans dat = Some (mapM (Scan_init dat) (offsets dat))
  ∧ ∀ scans,
      DatFile_scans dat = Some (Ok scans) →
      Z.of_nat (length scans) = NumScans dat
      ∧ ∀ (i : nat) scan, scans !! i = Some scan → GetScan dat (Z.of_nat i) = Ok scan.
Proof.
  intros Hfd.
  assert (Hmap : DatFile_scans dat = Some (mapM (Scan_init dat) (offsets dat))).
  { unfold DatFile_scans, DatFile_iter.
    rewrite (scans_from_mapM dat data Hfd (length (offsets dat)) 0);
      [done|lia|unfold NumScans; lia|lia]. }
  split; [done|]. intros scans Hscans.
  rewrite Hmap in Hscans. injection Hscans as Hscans.
  apply mapM_result_Ok in Hscans.
  split; [unfold NumScans; by rewrite (Forall2_length _ _ _ Hscans)|].
  intros i scan Hi.
  destruct (Forall2_lookup_r _ _ _ _ _ Hscans Hi) as (off & Hoff & Hinit).
  destruct (GetScan_in_range dat data (Z.of_nat i)) as (off' & Hoff' & Hget).
  - done.
  - apply lookup_lt_Some in Hoff. unfold NumScans. lia.
  - rewrite Nat2Z.id in Hoff'. congruence.
Qed.

Lemma X15_scans_of_a_file_witness :
  DatFile_scans (Open sample_dat) = Some (Ok [sample_scan sample_stream]).
Proof.
  destruct (X15_scans_of_a_file (Open sample_dat) (sample_file sample_stream) eq_refl)
    as [Hmap _].
  rewrite Hmap. vm_compute. reflexivity.
Defined.

(** X16.  Iterating a [DatFile] that is not open raises [NotOpen] at the
    first scan; when the index is empty there is no first scan, and the
    iteration ends at once without noticing that the file is closed. *)
Theorem X16_scans_of_a_closed_file dat :
  fd dat = None →
  DatFile_scans dat = Some (if NumScans dat =? 0 then Ok [] else Raise NotOpen)
  ∧ DatFileIterator_next (DatFile_iter dat) =
      Raise (if NumScans dat =? 0 then StopIteration else NotOpen).
Proof.
  intros Hfd.
  assert (Hnext : DatFileIterator_next (DatFile_iter dat) =
                  Raise (if NumScans dat =? 0 then StopIteration else NotOpen)).
  { unfold DatFileIterator_next, DatFile_iter.
    cbn [DatFileIterator_dat DatFileIterator_i].
    unfold NumScans. destruct (offsets dat) as [|off offs]; [done|].
    cbn [length]. destruct (Z.leb_spec (Z.of_nat (S (length offs))) 0); [lia|].
    rewrite GetScan_closed by done.
    by destruct (Z.eqb_spec (Z.of_nat (S (length offs))) 0); [lia|]. }
  split; [|done].
  unfold DatFile_scans. cbn [scans_from]. rewrite Hnext.
  by destruct (NumScans dat =? 0).
Qed.

Lemma X16_scans_of_a_closed_file_witness :
  DatFile_scans sample_dat = Some (Raise NotOpen).
Proof.
  exact (proj1 (X16_scans_of_a_closed_file sample_dat eq_refl)).
Defined.

(** ** The columns [main] writes *)

Lemma str_nonneg x : 0 <= x → startswith_minus (str x) = false.
Proof.
  intros Hx. destruct x as [|p|p]; [done| |lia].
  unfold str, startswith_minus. cbn [Z.to_int NilZero.string_of_int].
  by destruct (Pos.to_uint p).
Qed.

Lemma str_negative x : x < 0 → startswith_minus (str x) = true.
Proof.
  intros Hx. destruct x as [|p|p]; [lia|lia|].
  unfold str, startswith_minus. cbn [Z.to_int NilZero.string_of_int].
  by destruct (NilZero.string_of_uint (Pos.to_uint p)).
Qed.

Lemma str_parse x : NilZero.int_of_string (str x) = Some (Z.to_int x).
Proof.
  unfold str. apply NilZero.isi; destruct x as [|p|p]; cbn; try done.
  - intros [= H]. by apply DecimalPos.Unsigned.to_uint_nonnil in H.
  - intros [= H]. by apply DecimalPos.Unsigned.to_uint_nonnil in H.
Qed.

Lemma str_inj x y : str x = str y → x = y.
Proof.
  intros H. apply (f_equal NilZero.int_of_string) in H.
  rewrite !str_parse in H. injection H as H.
  by rewrite <- (DecimalZ.of_to x), <- (DecimalZ.of_to y), H.
Qed.

Lemma uint_of_string_star s : NilEmpty.uint_of_string (s +:+ "*") = None.
Proof.
  induction s as [|a s IH]; [done|].
  change (uint_of_char a (NilEmpty.uint_of_string (s +:+ "*")) = None).
  by rewrite IH.
Qed.

(** A string that ends with a star is not the decimal of an integer. *)
Lemma int_of_string_star s :
  startswith_minus s = false → NilZero.int_of_string (s +:+ "*") = None.
Proof.
  destruct s as [|a s]; [done|]. unfold startswith_minus. intros Hpre.
  change (String a s +:+ "*") with (String a (s +:+ "*")).
  unfold NilZero.int_of_string, NilZero.uint_of_string.
  destruct (Ascii.eqb a _) eqn:E.
  - apply Ascii.eqb_eq in E as ->. by destruct s.
  - change (NilEmpty.uint_of_string (String a (s +:+ "*")))
      with (uint_of_char a (NilEmpty.uint_of_string (s +:+ "*"))).
    by rewrite uint_of_string_star.
Qed.

Lemma append_star_inj s t : s +:+ "*" = t +:+ "*" → s = t.
Proof.
  revert t. induction s as [|a s IH]; intros [|b t]; cbn; try done.
  - intros [= _ H]. by destruct t.
  - intros [= _ H]. by destruct s.
  - intros [= -> H]. f_equal. by apply IH.
Qed.

(** X17.  The text [main] writes for a measurement: the decimal of a value
    that is not negative, and for a negative value the decimal of its
    magnitude followed by a star.  The text never starts with a minus sign,
    and two different values never get the same text. *)
Theorem X17_text_of_a_measurement x y :
  (0 <= x → format_measurement x = str x)
  ∧ (x < 0 → format_measurement x = str (- x) +:+ "*")
  ∧ startswith_minus (format_measurement x) = false
  ∧ (format_measurement x = format_measurement y → x = y).
Proof.
  assert (Hpos : ∀ z, 0 <= z → format_measurement z = str z).
  { intros z Hz. unfold format_measurement. by rewrite str_nonneg. }
  assert (Hneg : ∀ z, z < 0 → format_measurement z = str (- z) +:+ "*").
  { intros z Hz. unfold format_measurement. by rewrite str_negative. }
  assert (Hmixed : ∀ a b, 0 <= a → b < 0 → str a ≠ str (- b) +:+ "*").
  { intros a b Ha Hb H. apply (f_equal NilZero.int_of_string) in H.
    rewrite str_parse, int_of_string_star in H; [done|]. apply str_nonneg. lia. }
  split; [apply Hpos|]. split; [apply Hneg|]. split.
  - destruct (Z.lt_ge_cases x 0) as [Hx|Hx].
    + rewrite Hneg by done.
      pose proof (str_nonneg (- x) ltac:(lia)) as Hs. unfold startswith_minus in *.
      destruct (str (- x)) as [|a s]; [done|].
      change (String a s +:+ "*") with (String a (s +:+ "*")).
      cbn [String.prefix] in Hs |- *.
      destruct (Ascii.ascii_dec _ a); [|done]. by destruct s.
    + rewrite Hpos by done. by apply str_nonneg.
  - destruct (Z.lt_ge_cases x 0) as [Hx|Hx], (Z.lt_ge_cases y 0) as [Hy|Hy];
      rewrite ?(Hneg x), ?(Hneg y), ?(Hpos x), ?(Hpos y) by done; intros H.
    + apply append_star_inj, str_inj in H. lia.
    + symmetry in H. by apply Hmixed in H.
    + by apply Hmixed in H.
    + by apply str_inj.
Qed.

Lemma X17_text_of_a_measurement_witness :
  format_measurement 5 = "5" ∧ format_measurement (-5) = "5*".
Proof.
  destruct (X17_text_of_a_measurement 5 5) as (Hpos & _).
  destruct (X17_text_of_a_measurement (-5) 5) as (_ & Hneg & _).
  split; [apply Hpos|apply Hneg]; lia.
Defined.

(** X18.  The columns of a decoded mass record: [main] writes the values of
    the pulse DATA words, in the order of the words, then those of the
    analog DATA words, then an empty column; the values of faraday words are
    not written.  The header gets the name of the mass with [p] for every
    pulse value and with [a] for every analog value and an empty column, so
    the header and the row of a mass have the same number of columns. *)
Theorem X18_columns_of_a_mass e data pos ws w element :
  0 <= pos → body_ok ws = true → tag w = KEY_EOM →
  words_at data pos (ws ++ [w]) →
  ∃ m,
    Mass_init e (Some data) pos = Ok m
    ∧ main_mass_results m =
        map format_measurement (values_of "pulse" ws)
        ++ map format_measurement (values_of "analog" ws) ++ [""]
    ∧ main_mass_headers element m =
        replicate (length (values_of "pulse" ws)) (element +:+ "p")
        ++ replicate (length (values_of "analog" ws)) (element +:+ "a") ++ [""]
    ∧ length (main_mass_headers element m) = length (main_mass_results m).
Proof.
  intros Hpos Hok Htag Hat.
  destruct (Mass_init_record_attributes e data pos ws w)
    as (m & Hinit & _ & _ & _ & _ & Hc); [done..|].
  exists m. split; [done|].
  unfold main_mass_results, main_mass_headers, measurements_get.
  rewrite !Hc. repeat split.
  rewrite !length_app, !length_replicate, !length_map. done.
Qed.

Lemma X18_columns_of_a_mass_witness :
  ∃ m,
    Mass_init 1000
      (Some (sample_file [0x10800009; 0x1000000A; 0x11100003; 0x10100004;
                          0x80000064])) 552 = Ok m
    ∧ main_mass_results m = ["3*"; "4"; "10"; ""]
    ∧ main_mass_headers "Mass01" m = ["Mass01p"; "Mass01p"; "Mass01a"; ""].
Proof.
  destruct (X18_columns_of_a_mass 1000
              (sample_file [0x10800009; 0x1000000A; 0x11100003; 0x10100004;
                            0x80000064]) 552
              [0x10800009; 0x1000000A; 0x11100003; 0x10100004] 0x80000064 "Mass01")
    as (m & Hinit & Hres & Hhead & _).
  - lia.
  - vm_compute. reflexivity.
  - reflexivity.
  - vm_compute. tauto.
  - exists m. split; [exact Hinit|]. split; [exact Hres|exact Hhead].
Defined.

(** ** From the bytes of a file to its scans *)

Lemma mapM_result_Forall {A B} (f : A → result B) l :
  Forall (λ x, ∃ y, f x = Ok y) l → ∃ k, mapM f l = Ok k.
Proof.
  induction 1 as [|x l [y Hy] _ [k Hk]]; [by exists []|].
  exists (y :: k). cbn. rewrite Hy. cbn. by rewrite Hk.
Qed.

(** X19.  From the bytes to the scans: a file that holds the header block,
    the index table and the 188 bytes of every scan header the index points
    at.  Constructing the [DatFile], opening it and iterating it yields one
    scan per entry of the index, in the order of the index; the scan of the
    entry [i] has the number in field 9 of the header at that offset, and
    its mass stream starts 188 bytes after it. *)
Theorem X19_scans_from_the_bytes data N O :
  0x10 + 85 * 4 <= Z.of_nat (length data) →
  field data 0x10 HDR_INDEX_LEN = Some N →
  field data 0x10 HDR_INDEX_OFFSET = Some O →
  O + 4 + 4 * N <= Z.of_nat (length data) →
  (∀ i off, 0 <= i < N → field data (O + 4) i = Some off →
            off + 188 <= Z.of_nat (length data)) →
  ∃ dat scans,
    DatFile_init data = Ok dat
    ∧ DatFile_scans (Open dat) = Some (Ok scans)
    ∧ Z.of_nat (length scans) = N
    ∧ ∀ i off, 0 <= i < N → field data (O + 4) i = Some off →
               ∃ scan,
                 scans !! Z.to_nat i = Some scan
                 ∧ Some (number scan) = field data off 9
                 ∧ Scan_offset scan = off + 188.
Proof.
  intros Hlen HN HO Hindex Hheaders.
  destruct (DatFile_init_blocks data N O)
    as (vals & offs & ts & _ & _ & Holen & Ho & _ & Hinit); [done..|].
  set (dat := mkDatFile data None ts N O vals offs) in *.
  assert (Hfd : fd (Open dat) = Some data) by done.
  assert (Hall : Forall (λ off, ∃ scan, Scan_init (Open dat) off = Ok scan) offs).
  { apply Forall_lookup. intros i off Hoff.
    pose proof (lookup_lt_Some _ _ _ Hoff) as Hi.
    assert (Hf : field data (O + 4) (Z.of_nat i) = Some off).
    { rewrite <- Ho by lia. by rewrite Nat2Z.id. }
    pose proof (word_at_range _ _ _ Hf) as Hr.
    destruct (Scan_init_ok (Open dat) data off) as (scan & Hscan & _);
      [done|lia|apply (Hheaders (Z.of_nat i)); [lia|done]|].
    by exists scan. }
  apply mapM_result_Forall in Hall as [scans Hscans].
  exists dat, scans. split; [done|].
  assert (Hiter : DatFile_scans (Open dat) = Some (Ok scans)).
  { unfold DatFile_scans, DatFile_iter.
    rewrite (scans_from_mapM (Open dat) data Hfd (length offs) 0);
      [by rewrite <- Hscans|lia|unfold NumScans; cbn; lia|cbn; lia]. }
  split; [done|].
  apply mapM_result_Ok in Hscans.
  split; [rewrite <- (Forall2_length _ _ _ Hscans); done|].
  intros i off Hi Hf.
  rewrite <- Ho in Hf by done.
  destruct (Forall2_lookup_l _ _ _ _ _ Hscans Hf) as (scan & Hscan & Hsinit).
  pose proof (word_at_range _ _ _ (eq_trans (eq_sym (Ho i Hi)) Hf)) as Hr.
  destruct (Scan_init_ok (Open dat) data off)
    as (scan' & Hscan' & _ & Hso & _ & _ & _ & Hnum & _);
    [done|lia|apply (Hheaders i); [done|by rewrite <- Ho]|].
  assert (scan' = scan) as -> by congruence.
  by exists scan.
Qed.

Lemma X19_scans_from_the_bytes_witness :
  ∃ dat scans,
    DatFile_init (sample_file sample_stream) = Ok dat
    ∧ DatFile_scans (Open dat) = Some (Ok scans)
    ∧ Z.of_nat (length scans) = 1.
Proof.
  destruct (X19_scans_from_the_bytes (sample_file sample_stream) 1 356)
    as (dat & scans & Hinit & Hscans & Hlen & _).
  - vm_compute. discriminate.
  - vm_compute. reflexivity.
  - vm_compute. reflexivity.
  - vm_compute. discriminate.
  - intros i off Hi. assert (i = 0) as -> by lia.
    vm_compute. intros [= <-]. discriminate.
  - exists dat, scans. split; [exact Hinit|]. split; [exact Hscans|exact Hlen].
Defined.
